(** * metrics-dash: the upload worker of [src/index.js]

    A shallow embedding of the Cloudflare worker that accepts a Prometheus
    text snapshot, checks that it looks like one, parses it into gauges,
    counters and histograms, and keeps the last snapshots in a key-value
    namespace.

    Conventions of the model.
    - A JavaScript string is a [string]; every [ascii] is one UTF-16 code
      unit below 256.  The white-space class of [\s] and of [trim] is the
      ECMAScript one restricted to that range: 9-13, 32 and 160.
    - A JavaScript number is a [number]: the exact rational a literal
      denotes, standing for the binary64 value it rounds to.
    - A plain object used as a map is the list of its own properties in
      insertion order; reads go through [Object.prototype] as the language
      prescribes (module [Obj]).  JavaScript enumerates integer-like keys
      before the others; the statements below are about lookups, or about
      objects without such keys.
    - The namespace answers every call.  A call of [METRICS_STORAGE] that
      is rejected (an unavailable backend) is not represented; the
      statements are about requests served while the backend answers.
    - Exceptions are the [Throws] outcome. *)

From Stdlib Require Import ZArith QArith Qabs Ascii String List Lia Bool.
From stdpp Require Import base option list strings gmap sorting pretty.

Local Open Scope string_scope.
Local Open Scope list_scope.

(* ===================================================================== *)
(** ** Strings *)
(* ===================================================================== *)

Module Str.

(** Code units. *)
Definition code (c : ascii) : N := N_of_ascii c.

Definition in_range (lo hi : ascii) (c : ascii) : bool :=
  (code lo <=? code c)%N && (code c <=? code hi)%N.

Definition is_digit (c : ascii) : bool := in_range "0" "9" c.
Definition is_lower (c : ascii) : bool := in_range "a" "z" c.
Definition is_upper (c : ascii) : bool := in_range "A" "Z" c.

(** [\s], and the characters [String.prototype.trim] removes: TAB, LF, VT,
    FF, CR, SPACE and NO-BREAK SPACE. *)
Definition is_space (c : ascii) : bool :=
  in_range "009" "013" c || (code c =? 32)%N || (code c =? 160)%N.

(** What [.] refuses without the [s] flag: LF and CR. *)
Definition is_line_terminator (c : ascii) : bool :=
  (code c =? 10)%N || (code c =? 13)%N.

Definition chars (s : string) : list ascii := list_ascii_of_string s.

(** [s.startsWith(p)] *)
Definition startsWith (s p : string) : bool := String.prefix p s.

(** [s.includes(p)] *)
Fixpoint includes (s p : string) : bool :=
  String.prefix p s ||
  match s with
  | EmptyString => false
  | String _ s' => includes s' p
  end.

Fixpoint drop (n : nat) (s : string) : string :=
  match n, s with
  | S n', String _ s' => drop n' s'
  | _, _ => s
  end.

(** [s.endsWith(p)] *)
Definition endsWith (s p : string) : bool :=
  (String.length p <=? String.length s)%nat &&
  String.eqb (drop (String.length s - String.length p) s) p.

(** [s.replace(p, '')] for a string pattern [p]: the first occurrence of
    [p] is removed. *)
Fixpoint remove_first (p s : string) : string :=
  if String.prefix p s then drop (String.length p) s
  else match s with
       | EmptyString => EmptyString
       | String c s' => String c (remove_first p s')
       end.

(** [s.replace(/c/g, '')]: every occurrence of the character [c] is
    removed. *)
Fixpoint remove_all (c : ascii) (s : string) : string :=
  match s with
  | EmptyString => EmptyString
  | String d s' =>
      if Ascii.eqb c d then remove_all c s' else String d (remove_all c s')
  end.

(** [s.split(c)] for a one-character separator: never empty, the pieces
    between the separators, empty pieces included. *)
Fixpoint split (c : ascii) (s : string) : list string :=
  match s with
  | EmptyString => [EmptyString]
  | String d s' =>
      if Ascii.eqb c d then EmptyString :: split c s'
      else match split c s' with
           | [] => [String d EmptyString]
           | p :: ps => String d p :: ps
           end
  end.

Fixpoint drop_while (f : ascii -> bool) (s : string) : string :=
  match s with
  | EmptyString => EmptyString
  | String c s' => if f c then drop_while f s' else s
  end.

Fixpoint take_while (f : ascii -> bool) (s : string) : string :=
  match s with
  | EmptyString => EmptyString
  | String c s' => if f c then String c (take_while f s') else EmptyString
  end.

(** Removal of the trailing characters that satisfy [f]. *)
Fixpoint drop_while_end (f : ascii -> bool) (s : string) : string :=
  match s with
  | EmptyString => EmptyString
  | String c s' =>
      match drop_while_end f s' with
      | EmptyString => if f c then EmptyString else String c EmptyString
      | r => String c r
      end
  end.

(** [s.trim()] *)
Definition trim (s : string) : string :=
  drop_while_end is_space (drop_while is_space s).

(** [s.split(/\s+/)]: the maximal runs of non-space characters; a string
    that starts (ends) with white space yields an empty first (last)
    piece, and the empty string yields one empty piece. *)
Fixpoint split_spaces (s : string) : list string :=
  match s with
  | EmptyString => [EmptyString]
  | String c s' =>
      if is_space c then
        match s' with
        | String c' _ =>
            if is_space c' then split_spaces s'
            else EmptyString :: split_spaces s'
        | EmptyString => EmptyString :: split_spaces s'
        end
      else match split_spaces s' with
           | [] => [String c EmptyString]
           | p :: ps => String c p :: ps
           end
  end.

End Str.

(* ===================================================================== *)
(** ** Numbers *)
(* ===================================================================== *)

Module Num.
Import Str.

(** A JavaScript number.  [Finite q] stands for the binary64 value the
    rational [q] rounds to (to nearest, ties to even); the rounding itself
    is only needed for truthiness, see [rounds_to_zero]. *)
Inductive number :=
| NaN
| Inf (negative : bool)
| NegZero
| Finite (q : Q).

Definition of_Z (z : Z) : number := Finite (inject_Z z).

(** A rational rounds to zero exactly when its magnitude is at most half
    the least subnormal, 2^-1075. *)
Definition rounds_to_zero (q : Q) : bool :=
  Qle_bool (Qabs q) (1 # Pos.pow 2 1075).

(** [ToBoolean] on numbers. *)
Definition truthy (n : number) : bool :=
  match n with
  | NaN | NegZero => false
  | Inf _ => true
  | Finite q => negb (rounds_to_zero q)
  end.

Definition digit_of (c : ascii) : option N :=
  if is_digit c then Some (code c - 48)%N
  else if in_range "a" "f" c then Some (code c - 87)%N
  else if in_range "A" "F" c then Some (code c - 55)%N
  else None.

(** The value of a non-empty run of digits in the given radix. *)
Fixpoint radix_go (radix : N) (s : string) (acc : N) : option N :=
  match s with
  | EmptyString => Some acc
  | String c s' =>
      match digit_of c with
      | Some d => if (d <? radix)%N then radix_go radix s' (acc * radix + d)%N
                  else None
      | None => None
      end
  end.

Definition radix_value (radix : N) (s : string) : option N :=
  match s with
  | EmptyString => None
  | _ => radix_go radix s 0%N
  end.

Definition is_e (c : ascii) : bool := Ascii.eqb c "e" || Ascii.eqb c "E".

(** [ExponentPart], which may be absent; [None] when what is left is not
    an exponent. *)
Definition exponent (s : string) : option Z :=
  match s with
  | EmptyString => Some 0%Z
  | String c r =>
      if is_e c then
        match r with
        | String "+" d => Z.of_N <$> radix_value 10 d
        | String "-" d => (fun n => (- Z.of_N n)%Z) <$> radix_value 10 d
        | d => Z.of_N <$> radix_value 10 d
        end
      else None
  end.

Definition signed (negative : bool) (q : Q) : number :=
  if negative then (if Qeq_bool q 0 then NegZero else Finite (Qred (- q)))
  else Finite (Qred q).

(** [StrDecimalLiteral]: an optional sign, then [Infinity] or decimal
    digits with an optional fraction and exponent. *)
Definition decimal_literal (s : string) : number :=
  let '(negative, body) :=
    match s with
    | String "+" r => (false, r)
    | String "-" r => (true, r)
    | _ => (false, s)
    end in
  if String.eqb body "Infinity" then Inf negative
  else
    let int_part := take_while is_digit body in
    let after_int := drop_while is_digit body in
    let '(frac_part, after_frac) :=
      match after_int with
      | String "." r => (take_while is_digit r, drop_while is_digit r)
      | _ => (EmptyString, after_int)
      end in
    match radix_value 10 (int_part ++ frac_part), exponent after_frac with
    | Some mantissa, Some e =>
        signed negative
          (inject_Z (Z.of_N mantissa) *
           Qpower 10 (e - Z.of_nat (String.length frac_part)))
    | _, _ => NaN
    end.

(** [Number(s)] on a string: [StringToNumber]. *)
Definition Number (s : string) : number :=
  match trim s with
  | EmptyString => Finite 0
  | String "0" (String x digits) as t =>
      if Ascii.eqb x "x" || Ascii.eqb x "X" then
        from_option (fun n => Finite (inject_Z (Z.of_N n))) NaN (radix_value 16 digits)
      else if Ascii.eqb x "o" || Ascii.eqb x "O" then
        from_option (fun n => Finite (inject_Z (Z.of_N n))) NaN (radix_value 8 digits)
      else if Ascii.eqb x "b" || Ascii.eqb x "B" then
        from_option (fun n => Finite (inject_Z (Z.of_N n))) NaN (radix_value 2 digits)
      else decimal_literal t
  | t => decimal_literal t
  end.

End Num.

(* ===================================================================== *)
(** ** Objects used as maps *)
(* ===================================================================== *)

Module Obj.
Import Num.

(** The own properties of a plain object, in insertion order. *)
Definition props (A : Type) : Type := list (string * A).

Fixpoint get_own {A} (k : string) (o : props A) : option A :=
  match o with
  | [] => None
  | (k', v) :: o' => if String.eqb k k' then Some v else get_own k o'
  end.

(** Definition of an own data property: an existing one keeps its place. *)
Fixpoint set_own {A} (k : string) (v : A) (o : props A) : props A :=
  match o with
  | [] => [(k, v)]
  | (k', v') :: o' =>
      if String.eqb k k' then (k, v) :: o' else (k', v') :: set_own k v o'
  end.

Definition keys {A} (o : props A) : list string := fst <$> o.

(** The properties every object inherits from [Object.prototype]: eleven
    functions and the accessor [__proto__], whose getter answers
    [Object.prototype] itself on an object literal. *)
Definition prototype_functions : list string :=
  [ "constructor"; "hasOwnProperty"; "isPrototypeOf"; "propertyIsEnumerable";
    "toLocaleString"; "toString"; "valueOf"; "__defineGetter__";
    "__defineSetter__"; "__lookupGetter__"; "__lookupSetter__" ].

Definition is_prototype_function (k : string) : bool :=
  existsb (String.eqb k) prototype_functions.

(** What this program can add to [Object.prototype]: the data properties
    [sum] and [count] (see [parse_line]).  The prototype is shared by all
    objects and outlives a call. *)
Record realm := {
  proto_sum : option number;
  proto_count : option number
}.

Definition pristine : realm := {| proto_sum := None; proto_count := None |}.

(** [o[k] = v] on an object literal whose properties are all of the same
    kind.  Assigning [__proto__] runs the inherited setter: it replaces the
    prototype of [o] by [v] and defines no own property; nothing in the
    program observes the prototype of the object concerned, so the model
    drops it.  Every other inherited property is a writable data property,
    and the assignment defines an own one. *)
Definition assign {A} (o : props A) (k : string) (v : A) : props A :=
  if String.eqb k "__proto__" then o else set_own k v o.

(** The result of [o[k]] for an object [o] of histogram entries. *)
Inductive slot (A : Type) :=
| Own (a : A)              (* an own property *)
| ThePrototype             (* [Object.prototype], through [__proto__] *)
| Function_                (* one of the inherited functions *)
| InheritedNumber (n : number)  (* [sum] or [count] put on the prototype *)
| Undefined.
Arguments Own {A} a.
Arguments ThePrototype {A}.
Arguments Function_ {A}.
Arguments InheritedNumber {A} n.
Arguments Undefined {A}.

Definition get {A} (r : realm) (o : props A) (k : string) : slot A :=
  match get_own k o with
  | Some a => Own a
  | None =>
      if String.eqb k "__proto__" then ThePrototype
      else if is_prototype_function k then Function_
      else if String.eqb k "sum" then from_option InheritedNumber Undefined (proto_sum r)
      else if String.eqb k "count" then from_option InheritedNumber Undefined (proto_count r)
      else Undefined
  end.

Definition slot_truthy {A} (s : slot A) : bool :=
  match s with
  | Own _ | ThePrototype | Function_ => true
  | InheritedNumber n => truthy n
  | Undefined => false
  end.

End Obj.

(* ===================================================================== *)
(** ** The parsed model *)
(* ===================================================================== *)

Import Str Num Obj.

(** Label values are strings, or [undefined] for a label written without
    [=]. *)
Record MetricSample := {
  sample_value : number;
  sample_labels : props (option string)
}.

Record Bucket := {
  bucket_le : option string;
  bucket_count : number
}.

(** [None] for [sum] or [count]: the entry has no such own property, and a
    read of it goes on to the prototype. *)
Record HistogramAccumulator := {
  hist_buckets : list Bucket;
  hist_sum : option number;
  hist_count : option number
}.

Record ParsedMetrics := {
  gauges : props MetricSample;
  counters : props MetricSample;
  histograms : props HistogramAccumulator
}.

Definition empty_metrics : ParsedMetrics :=
  {| gauges := []; counters := []; histograms := [] |}.

(** [{ buckets: [] }] *)
Definition new_histogram : HistogramAccumulator :=
  {| hist_buckets := []; hist_sum := None; hist_count := None |}.

Inductive error := TypeError.

Inductive outcome (A : Type) :=
| Returns (a : A)
| Throws (e : error).
Arguments Returns {A} a.
Arguments Throws {A} e.

(* ===================================================================== *)
(** ** [parsePrometheusMetrics] *)
(* ===================================================================== *)

(** The double quote, as a character and as a one-character string. *)
Definition dquote : ascii := "034".
Definition dq : string := String dquote EmptyString.

Definition is_open (c : ascii) : bool := Ascii.eqb c "[" || Ascii.eqb c "{".
Definition not_open (c : ascii) : bool := negb (is_open c).
Definition not_close (c : ascii) : bool := negb (Ascii.eqb c "}").

(** [nameLabels.match(/([^[{]+)(?:{([^}]+)})?/)], as the pair of its two
    groups.  The pattern is not anchored: the match starts at the first
    character that is neither a bracket nor a brace, and fails when there is
    none.  Group 1 is greedy, so it is the whole run up to the next bracket
    or brace; whatever follows it, the optional group can be skipped, so the
    run is never shortened.  Group 2 takes part only when the run is followed
    by a brace, a non-empty run without closing brace, and a closing brace. *)
Definition match_name_labels (nameLabels : string)
  : option (string * option string) :=
  match drop_while is_open nameLabels with
  | EmptyString => None
  | s =>
      let name := take_while not_open s in
      let labelsStr :=
        match drop_while not_open s with
        | String "{" r =>
            match take_while not_close r, drop_while not_close r with
            | String c body, String "}" _ => Some (String c body)
            | _, _ => None
            end
        | _ => None
        end in
      Some (name, labelsStr)
  end.

(** [Object.fromEntries(labelsStr.split(',').map(l =>
      l.split('=').map(s => s.replace(/q/g, ''))))] with [q] the double
    quote: of every comma-separated piece, what precedes the first [=] is
    the key and what lies between the first and the second [=] is the value
    ([undefined] without any [=]); [fromEntries] defines own properties. *)
Definition parse_labels (labelsStr : string) : props (option string) :=
  fold_left
    (fun o entry => set_own (default EmptyString (entry !! 0%nat)) (entry !! 1%nat) o)
    ((fun l => remove_all dquote <$> split "=" l) <$> split "," labelsStr)
    [].

(** [name.replace(/_(sum|count)$/, '')] *)
Definition strip_sum_count (name : string) : string :=
  if endsWith name "_sum" then String.substring 0 (String.length name - 4) name
  else if endsWith name "_count" then String.substring 0 (String.length name - 6) name
  else name.

Definition with_histograms (m : ParsedMetrics) (h : props HistogramAccumulator)
  : ParsedMetrics :=
  {| gauges := gauges m; counters := counters m; histograms := h |}.

(** [if (!metrics.histograms[baseName]) metrics.histograms[baseName] =
    { buckets: [] }] *)
Definition ensure_histogram (r : realm) (h : props HistogramAccumulator)
  (baseName : string) : props HistogramAccumulator :=
  if slot_truthy (get r h baseName) then h else assign h baseName new_histogram.

(** The body of the loop over the lines, from the state of the prototype and
    the model so far to the next ones; [Returns] is also the result of
    [continue]. *)
Definition parse_line (line : string) (r : realm) (metrics : ParsedMetrics)
  : outcome ParsedMetrics * realm :=
  if startsWith line "#" then (Returns metrics, r)
  else
    let parts := split_spaces line in
    match parts !! 0%nat, parts !! 1%nat with
    | Some (String _ _ as nameLabels), Some (String _ _ as value) =>
        match match_name_labels nameLabels with
        | None => (Returns metrics, r)
        | Some (name, labelsStr) =>
            let labels := from_option parse_labels [] labelsStr in
            if includes name "_bucket" then
              let baseName := remove_first "_bucket" name in
              let h := ensure_histogram r (histograms metrics) baseName in
              match get r h baseName with
              | Own entry =>
                  let bucket := {| bucket_le := mjoin (get_own "le" labels);
                                   bucket_count := Number value |} in
                  let entry' := {| hist_buckets := hist_buckets entry ++ [bucket];
                                   hist_sum := hist_sum entry;
                                   hist_count := hist_count entry |} in
                  (Returns (with_histograms metrics (set_own baseName entry' h)), r)
              | _ =>
                  (* [.buckets] is undefined on anything inherited *)
                  (Throws TypeError, r)
              end
            else if includes name "_sum" || includes name "_count" then
              let baseName := strip_sum_count name in
              let h := ensure_histogram r (histograms metrics) baseName in
              let is_sum := includes name "_sum" in
              match get r h baseName with
              | Own entry =>
                  let entry' :=
                    if is_sum
                    then {| hist_buckets := hist_buckets entry;
                            hist_sum := Some (Number value);
                            hist_count := hist_count entry |}
                    else {| hist_buckets := hist_buckets entry;
                            hist_sum := hist_sum entry;
                            hist_count := Some (Number value) |} in
                  (Returns (with_histograms metrics (set_own baseName entry' h)), r)
              | ThePrototype =>
                  (* the field lands on [Object.prototype] *)
                  (Returns (with_histograms metrics h),
                   if is_sum
                   then {| proto_sum := Some (Number value); proto_count := proto_count r |}
                   else {| proto_sum := proto_sum r; proto_count := Some (Number value) |})
              | Function_ =>
                  (* the field lands on a built-in function, where nothing
                     reads it *)
                  (Returns (with_histograms metrics h), r)
              | InheritedNumber _ =>
                  (* a property write on a primitive is dropped in sloppy
                     mode, which is the mode of this script *)
                  (Returns (with_histograms metrics h), r)
              | Undefined => (Throws TypeError, r)
              end
            else
              let sample := {| sample_value := Number value; sample_labels := labels |} in
              if includes name "total" || includes name "errors"
              then (Returns {| gauges := gauges metrics;
                               counters := assign (counters metrics) name sample;
                               histograms := histograms metrics |}, r)
              else (Returns {| gauges := assign (gauges metrics) name sample;
                               counters := counters metrics;
                               histograms := histograms metrics |}, r)
        end
    | _, _ =>
        (* [!nameLabels || !value]: a piece is missing or empty *)
        (Returns metrics, r)
    end.

(** [for (const line of lines) { ... }], left when a line throws. *)
Fixpoint parse_lines (lines : list string) (r : realm) (metrics : ParsedMetrics)
  : outcome ParsedMetrics * realm :=
  match lines with
  | [] => (Returns metrics, r)
  | line :: rest =>
      match parse_line line r metrics with
      | (Returns metrics', r') => parse_lines rest r' metrics'
      | (Throws e, r') => (Throws e, r')
      end
  end.

Definition newline : ascii := "010".

Definition parsePrometheusMetrics (data : string) (r : realm)
  : outcome ParsedMetrics * realm :=
  parse_lines (split newline data) r empty_metrics.

Definition nl : string := String newline EmptyString.

(* ===================================================================== *)
(** ** Regular expressions, for [RegExp.prototype.test] *)
(* ===================================================================== *)

Module Regex.

(** Patterns over code units.  [test] only asks whether a pattern anchored
    at both ends matches, which is membership in its language; the order in
    which a backtracking matcher explores alternatives plays no part. *)
Inductive re :=
| Void
| Eps
| Class (p : ascii -> bool)
| Cat (a b : re)
| Alt (a b : re)
| Star (a : re).

Definition Opt (a : re) : re := Alt a Eps.
Definition Plus (a : re) : re := Cat a (Star a).
Definition Chr (c : ascii) : re := Class (Ascii.eqb c).

Inductive matches : re -> list ascii -> Prop :=
| m_eps : matches Eps []
| m_class p c : p c = true -> matches (Class p) [c]
| m_cat a b s1 s2 : matches a s1 -> matches b s2 -> matches (Cat a b) (s1 ++ s2)
| m_alt_l a b s : matches a s -> matches (Alt a b) s
| m_alt_r a b s : matches b s -> matches (Alt a b) s
| m_star_nil a : matches (Star a) []
| m_star_cons a s1 s2 :
    matches a s1 -> matches (Star a) s2 -> matches (Star a) (s1 ++ s2).

Fixpoint nullable (r : re) : bool :=
  match r with
  | Void => false
  | Eps => true
  | Class _ => false
  | Cat a b => nullable a && nullable b
  | Alt a b => nullable a || nullable b
  | Star _ => true
  end.

(** Brzozowski derivative. *)
Fixpoint deriv (c : ascii) (r : re) : re :=
  match r with
  | Void => Void
  | Eps => Void
  | Class p => if p c then Eps else Void
  | Cat a b =>
      if nullable a then Alt (Cat (deriv c a) b) (deriv c b)
      else Cat (deriv c a) b
  | Alt a b => Alt (deriv c a) (deriv c b)
  | Star a => Cat (deriv c a) (Star a)
  end.

Fixpoint test_chars (r : re) (s : list ascii) : bool :=
  match s with
  | [] => nullable r
  | c :: s' => test_chars (deriv c r) s'
  end.

(** [/^r$/.test(s)] *)
Definition test (r : re) (s : string) : bool :=
  test_chars r (list_ascii_of_string s).

End Regex.

(* ===================================================================== *)
(** ** [isValidPrometheusMetrics] *)
(* ===================================================================== *)

Import Regex.

Definition is_ident_start (c : ascii) : bool :=
  is_lower c || is_upper c || Ascii.eqb c "_" || Ascii.eqb c ":".
Definition is_ident_char (c : ascii) : bool := is_ident_start c || is_digit c.
Definition is_dot (c : ascii) : bool := negb (is_line_terminator c).
Definition is_sign (c : ascii) : bool := Ascii.eqb c "+" || Ascii.eqb c "-".

Declare Scope re_scope.
Delimit Scope re_scope with re.
Infix "·" := Cat (at level 60, right associativity) : re_scope.

(** [[a-zA-Z_:][a-zA-Z0-9_:]*({.*})?\s+-?\d+(\.\d+)?([eE][+-]?\d+)?],
    between [^] and [$]. *)
Definition metric_line_re : re :=
  (Class is_ident_start · Star (Class is_ident_char)
   · Opt (Chr "{" · Star (Class is_dot) · Chr "}")
   · Plus (Class is_space)
   · Opt (Chr "-") · Plus (Class is_digit)
   · Opt (Chr "." · Plus (Class is_digit))
   · Opt (Class is_e · Opt (Class is_sign) · Plus (Class is_digit)))%re.

Definition isValidPrometheusMetrics (data : string) : bool :=
  let lines := split newline (trim data) in
  existsb
    (fun line => startsWith line "#" || test metric_line_re (trim line))
    lines.

(* ===================================================================== *)
(** ** The key-value namespace [METRICS_STORAGE] *)
(* ===================================================================== *)

(** What [JSON.stringify({ data: metricsData, timestamp })] stores and
    [JSON.parse] gives back. *)
Record envelope := {
  env_data : string;
  env_timestamp : Z
}.

Inductive kv_op :=
| OpList
| OpGet (key : string)
| OpDelete (key : string)
| OpPut (key : string) (value : envelope).

(** What a request can read and change: the namespace, the shared
    [Object.prototype], and, for the record, the operations issued on the
    namespace so far. *)
Record world := {
  kv : gmap string envelope;
  object_prototype : realm;
  log : list kv_op
}.

Definition M (A : Type) : Type := world -> outcome A * world.

Definition ret {A} (a : A) : M A := fun w => (Returns a, w).
Definition throw {A} (e : error) : M A := fun w => (Throws e, w).
Definition bind {A B} (m : M A) (k : A -> M B) : M B :=
  fun w =>
    match m w with
    | (Returns a, w') => k a w'
    | (Throws e, w') => (Throws e, w')
    end.

Notation "'let*' x ':=' m 'in' k" := (bind m (fun x => k))
  (at level 10, x pattern, m at level 100, k at level 200).

(** The order of JavaScript strings, by code units. *)
Definition string_le (a b : string) : Prop := String.leb a b = true.

Global Instance string_le_dec a b : Decision (string_le a b).
Proof. unfold string_le. apply _. Defined.

Definition issue (op : kv_op) (w : world) (store : gmap string envelope) : world :=
  {| kv := store; object_prototype := object_prototype w; log := log w ++ [op] |}.

(** [METRICS_STORAGE.list()], as the names of the keys: all of them (the
    contract of the collaborator; the service answers one page, which holds
    a thousand keys), in lexicographic order. *)
Definition kv_list : M (list string) :=
  fun w => (Returns (merge_sort string_le (elements (dom (kv w)))), issue OpList w (kv w)).

Definition kv_get (key : string) : M (option envelope) :=
  fun w => (Returns (kv w !! key), issue (OpGet key) w (kv w)).

Definition kv_delete (key : string) : M unit :=
  fun w => (Returns tt, issue (OpDelete key) w (delete key (kv w))).

Definition kv_put (key : string) (value : envelope) : M unit :=
  fun w => (Returns tt, issue (OpPut key value) w (<[key := value]> (kv w))).

(** [parsePrometheusMetrics(data)], run on the shared prototype. *)
Definition parse (data : string) : M ParsedMetrics :=
  fun w =>
    let '(o, r) := parsePrometheusMetrics data (object_prototype w) in
    (o, {| kv := kv w; object_prototype := r; log := log w |}).

(** The key of a snapshot taken at [timestamp]: the prefix followed by the
    decimal digits of the number. *)
Definition snapshot_key (timestamp : Z) : string := "metrics_" ++ pretty timestamp.

(** [existingMetrics.keys.map(k => k.name).sort().reverse()]: the default
    order of [sort] compares strings; on names that are pairwise distinct
    every sorting algorithm gives the same array. *)
Definition sorted_keys (names : list string) : list string :=
  reverse (merge_sort string_le names).

(** Lines 23 to 28 of [handleRequest]: the retention policy and the write. *)
Definition save (timestamp : Z) (metricsData : string) : M unit :=
  let* existingMetrics := kv_list in
  let keys := sorted_keys existingMetrics in
  let* _ := match keys with
            | _ :: key1 :: _ => kv_delete key1      (* keys.length >= 2 *)
            | _ => ret tt
            end in
  kv_put (snapshot_key timestamp)
         {| env_data := metricsData; env_timestamp := timestamp |}.

(* ===================================================================== *)
(** ** [handleRequest] *)
(* ===================================================================== *)

(** An entry of the submitted form is a string or a file; only a file has a
    [text] method. *)
Inductive FormDataEntryValue :=
| FormString (s : string)
| FormFile (text : string).

(** A request whose body, if read, is well-formed form data. *)
Record Request := {
  method : string;
  formData : list (string * FormDataEntryValue);
  searchParams : list (string * string)
}.

Record Response := {
  status : Z;
  body : string;
  content_type : option string
}.

(** [new Response(text, { status })]: a body given as a string comes with
    the content type of plain text. *)
Definition plain (code : Z) (text : string) : Response :=
  {| status := code; body := text;
     content_type := Some "text/plain;charset=UTF-8" |}.

(** [new Response(html, { headers: { 'content-type': ... } })] *)
Definition html (text : string) : Response :=
  {| status := 200; body := text; content_type := Some "text/html;charset=UTF-8" |}.

(** [formData.get(name)] and [searchParams.get(name)]: the first entry of
    that name, or [null]. *)
Definition first_of {A} (name : string) (entries : list (string * A)) : option A :=
  get_own name entries.

(** [metricsList.sort((a, b) => b.timestamp - a.timestamp)]: descending in
    the timestamp, stable. *)
Fixpoint insert_by_timestamp (x : string * Z) (l : list (string * Z))
  : list (string * Z) :=
  match l with
  | [] => [x]
  | y :: l' => if (x.2 <? y.2)%Z then y :: insert_by_timestamp x l' else x :: l
  end.

Definition sort_by_timestamp (l : list (string * Z)) : list (string * Z) :=
  foldr insert_by_timestamp [] l.

Section Handler.

(** The two templates, which only build text: the dashboard, from the
    model, the prototype its property reads go through, and the timestamp
    as a number or as the text of the query; and the upload form, from the
    recent uploads. *)
Variable generateDashboard : realm -> ParsedMetrics -> Z + string -> string.
Variable uploadFormTemplate : list (string * Z) -> string.

Definition render (metrics : ParsedMetrics) (timestamp : Z + string) : M string :=
  fun w => (Returns (generateDashboard (object_prototype w) metrics timestamp), w).

Fixpoint get_all (names : list string) : M (list (string * Z)) :=
  match names with
  | [] => ret []
  | name :: rest =>
      let* stored := kv_get name in
      match stored with
      | None => throw TypeError   (* destructuring of [JSON.parse(null)] *)
      | Some e =>
          let* others := get_all rest in
          ret ((name, env_timestamp e) :: others)
      end
  end.

Definition generateUploadForm : M string :=
  let* existingMetrics := kv_list in
  let* metricsList := get_all existingMetrics in
  let sortedMetrics := take 2 (sort_by_timestamp metricsList) in
  ret (uploadFormTemplate sortedMetrics).

(** [now] is the value of [Date.now()] during the request. *)
Definition handleRequest (request : Request) (now : Z) : M Response :=
  if String.eqb (method request) "POST" then
    match first_of "metricsFile" (formData request) with
    | None | Some (FormString EmptyString) =>
        ret (plain 400 "No metrics file uploaded")
    | Some (FormString _) =>
        throw TypeError             (* a string has no [text] method *)
    | Some (FormFile metricsData) =>
        if negb (isValidPrometheusMetrics metricsData) then
          ret (plain 400 "Invalid metrics file format. Please upload a valid Prometheus metrics file.")
        else
          let timestamp := now in
          let* metrics := parse metricsData in
          let* _ := save timestamp metricsData in
          let* page := render metrics (inl timestamp) in
          ret (html page)
    end
  else
    match first_of "timestamp" (searchParams request) with
    | Some (String _ _ as timestamp) =>
        let* stored := kv_get ("metrics_" ++ timestamp) in
        match stored with
        | None => ret (plain 404 "Metrics not found")
        | Some e =>
            let* metrics := parse (env_data e) in
            let* page := render metrics (inr timestamp) in
            ret (html page)
        end
    | _ =>
        let* page := generateUploadForm in
        ret (html page)
    end.

End Handler.

(* ===================================================================== *)
(** ** Definitions used in the statements *)
(* ===================================================================== *)

(** A fresh worker: nothing stored, nothing added to the prototype. *)
Definition fresh : world := {| kv := ∅; object_prototype := pristine; log := [] |}.

(** The three lines of the histogram [foo]. *)
Definition foo_bucket_line : string := "foo_bucket{le=" ++ dq ++ "0.5" ++ dq ++ "} 3".
Definition foo_sum_line : string := "foo_sum 10".
Definition foo_count_line : string := "foo_count 4".

Definition foo_entry : HistogramAccumulator :=
  {| hist_buckets := [{| bucket_le := Some "0.5"; bucket_count := of_Z 3 |}];
     hist_sum := Some (of_Z 10);
     hist_count := Some (of_Z 4) |}.

(** [lines.join(newline)] *)
Definition unlines (lines : list string) : string := String.concat nl lines.

Definition is_counter_name (name : string) : bool :=
  includes name "total" || includes name "errors".

Definition is_histogram_name (name : string) : bool :=
  includes name "_bucket" || includes name "_sum" || includes name "_count".

(** What the loop maintains about the keys of the two sample maps. *)
Definition classified (m : ParsedMetrics) : Prop :=
  Forall (fun k => is_histogram_name k = false /\ is_counter_name k = false)
         (keys (gauges m)) /\
  Forall (fun k => is_histogram_name k = false /\ is_counter_name k = true)
         (keys (counters m)).

(** The invariant of the specification: no name is a key of two of the three
    maps. *)
Definition in_at_most_one_map (m : ParsedMetrics) : Prop :=
  forall k : string,
    ~ (k ∈ keys (gauges m) /\ k ∈ keys (counters m)) /\
    ~ (k ∈ keys (gauges m) /\ k ∈ keys (histograms m)) /\
    ~ (k ∈ keys (counters m) /\ k ∈ keys (histograms m)).

(** An upload of a file that is not a metrics file, and one of a file whose
    only line is a bucket of the histogram [constructor]. *)
Definition upload (text : string) : Request :=
  {| method := "POST";
     formData := [("metricsFile", FormFile text)];
     searchParams := [] |}.






(** The effect of one operation on what the namespace stores. *)
Definition apply_op (store : gmap string envelope) (op : kv_op) : gmap string envelope :=
  match op with
  | OpDelete key => delete key store
  | OpPut key value => <[key := value]> store
  | OpList | OpGet _ => store
  end.

(** What the namespace stores after each operation of a sequence. *)
Fixpoint states_after (store : gmap string envelope) (ops : list kv_op)
  : list (gmap string envelope) :=
  match ops with
  | [] => []
  | op :: ops' => apply_op store op :: states_after (apply_op store op) ops'
  end.

(** Uploads saved one after the other. *)
Fixpoint save_all (uploads : list (Z * string)) : M unit :=
  match uploads with
  | [] => ret tt
  | (timestamp, metricsData) :: rest =>
      let* _ := save timestamp metricsData in
      save_all rest
  end.

(** The world a request leaves behind. *)
Definition after {A} (run : outcome A * world) : world := run.2.

Definition stored_keys (w : world) : list string := elements (dom (kv w)).

Definition all_chars (p : ascii -> bool) (s : list ascii) : Prop :=
  Forall (fun c => p c = true) s.

Definition some_chars (p : ascii -> bool) (s : list ascii) : Prop :=
  s <> [] /\ all_chars p s.

(** An identifier: a letter, underscore or colon, then letters, digits,
    underscores and colons. *)
Definition identifier (s : list ascii) : Prop :=
  exists c rest, s = c :: rest /\ is_ident_start c = true /\ all_chars is_ident_char rest.

(** A label block: an opening brace, anything on the line, a closing
    brace. *)
Definition label_block (s : list ascii) : Prop :=
  exists inner, s = "{"%char :: inner ++ ["}"%char] /\ all_chars is_dot inner.

Definition fraction (s : list ascii) : Prop :=
  exists digits, s = "."%char :: digits /\ some_chars is_digit digits.

Definition exponent_part (s : list ascii) : Prop :=
  exists e sign digits,
    s = e :: sign ++ digits /\ is_e e = true /\
    (sign = [] \/ sign = ["+"%char] \/ sign = ["-"%char]) /\ some_chars is_digit digits.

(** A number in decimal or scientific notation: an optional minus sign,
    digits, an optional fraction, an optional exponent. *)
Definition number_text (s : list ascii) : Prop :=
  exists sign int frac exp,
    s = sign ++ int ++ frac ++ exp /\
    (sign = [] \/ sign = ["-"%char]) /\ some_chars is_digit int /\
    (frac = [] \/ fraction frac) /\ (exp = [] \/ exponent_part exp).

(** A sample line: identifier, optional label block, white space, number. *)
Definition sample_line (s : list ascii) : Prop :=
  exists id block space number,
    s = id ++ block ++ space ++ number /\
    identifier id /\ (block = [] \/ label_block block) /\
    some_chars is_space space /\ number_text number.

(** The specification's account of the validator, read on the lines of the
    input as it is, a line being matched as it is or trimmed. *)
Definition claimed_valid (data : string) : Prop :=
  exists line, line ∈ split newline data /\
    (startsWith line "#" = true \/ sample_line (chars line) \/
     sample_line (chars (trim line))).

(** The operations that only read the namespace. *)
Definition is_read (op : kv_op) : bool :=
  match op with
  | OpList | OpGet _ => true
  | OpDelete _ | OpPut _ _ => false
  end.

(** A request that is not an upload, with the given query. *)
Definition retrieval (query : list (string * string)) : Request :=
  {| method := "GET"; formData := []; searchParams := query |}.

(** The stored snapshots as the upload form reads them: the keys in the
    order of the listing, each with the timestamp of its envelope. *)
Definition listed_uploads (w : world) : list (string * Z) :=
  omap (fun k => (fun e => (k, env_timestamp e)) <$> kv w !! k)
       (merge_sort string_le (stored_keys w)).

(** Descending in the timestamp. *)
Definition newer_first (a b : string * Z) : Prop := (b.2 <= a.2)%Z.

(** Templates that build no text, for the examples. *)
Definition no_dashboard (_ : realm) (_ : ParsedMetrics) (_ : Z + string) : string :=
  EmptyString.
Definition no_form (_ : list (string * Z)) : string := EmptyString.

(** The lines the loop leaves with [continue]: comments, lines whose first
    or second piece is missing or empty, and lines whose first piece holds
    nothing but opening brackets and opening braces. *)
Definition is_skipped (line : string) : bool :=
  startsWith line "#" ||
  match split_spaces line !! 0%nat, split_spaces line !! 1%nat with
  | Some (String _ _ as nameLabels), Some (String _ _) =>
      match match_name_labels nameLabels with
      | Some _ => false
      | None => true
      end
  | _, _ => true
  end.

(** A word: no white space in it. *)
Definition is_word (s : string) : bool :=
  forallb (fun c => negb (is_space c)) (chars s).

(** Every name a fresh object literal answers to before anything is stored
    in it, and the two names this program can add to the prototype. *)
Definition inherited_names : list string :=
  "__proto__" :: prototype_functions ++ ["sum"; "count"].

(** The base name under which a line adds a bucket, for the lines handled
    by the first branch of the dispatch. *)
Definition bucket_base (line : string) : option string :=
  if startsWith line "#" then None
  else
    match split_spaces line !! 0%nat, split_spaces line !! 1%nat with
    | Some (String _ _ as nameLabels), Some (String _ _) =>
        match match_name_labels nameLabels with
        | Some (name, _) =>
            if includes name "_bucket" then Some (remove_first "_bucket" name)
            else None
        | None => None
        end
    | _, _ => None
    end.

(** A bucket line whose base name is an inherited name. *)
Definition is_hazardous (line : string) : bool :=
  match bucket_base line with
  | Some baseName => bool_decide (baseName ∈ inherited_names)
  | None => false
  end.

(** The shape of a line the dispatch theorems speak of: a name, an optional
    label block, white space, a value, and a remainder that is empty or
    starts with white space (a timestamp, a carriage return). *)
Definition is_name (name : string) : bool :=
  match name with
  | EmptyString => false
  | String c _ =>
      negb (Ascii.eqb c "#") &&
      forallb (fun c => negb (is_space c) && not_open c) (chars name)
  end.

Definition is_label_text (text : string) : bool :=
  match text with
  | EmptyString => false
  | _ => forallb (fun c => negb (is_space c) && not_close c) (chars text)
  end.

Definition is_value (value : string) : bool :=
  match value with
  | EmptyString => false
  | _ => is_word value
  end.

Definition is_separator (sep : string) : bool :=
  match sep with
  | EmptyString => false
  | _ => forallb is_space (chars sep)
  end.

Definition is_remainder (rest : string) : bool :=
  match rest with
  | EmptyString => true
  | String c _ => is_space c
  end.

Definition is_label_block (labels : option string) : bool :=
  match labels with
  | Some text => is_label_text text
  | None => true
  end.

Definition block_text (labels : option string) : string :=
  match labels with
  | Some text => "{" ++ text ++ "}"
  | None => EmptyString
  end.

Definition line_of (name : string) (labels : option string) (sep value rest : string)
  : string :=
  (name ++ block_text labels) ++ sep ++ value ++ rest.

Definition well_formed (name : string) (labels : option string)
  (sep value rest : string) : bool :=
  is_name name && is_label_block labels && is_separator sep && is_value value &&
  is_remainder rest.

(** The label object of a line. *)
Definition labels_of (labels : option string) : props (option string) :=
  from_option parse_labels [] labels.

(** The sample a line stores. *)
Definition sample_of (labels : option string) (value : string) : MetricSample :=
  {| sample_value := Number value; sample_labels := labels_of labels |}.

(** The bucket a line adds. *)
Definition bucket_of (labels : option string) (value : string) : Bucket :=
  {| bucket_le := mjoin (get_own "le" (labels_of labels));
     bucket_count := Number value |}.

Definition add_bucket (entry : HistogramAccumulator) (b : Bucket) : HistogramAccumulator :=
  {| hist_buckets := hist_buckets entry ++ [b];
     hist_sum := hist_sum entry;
     hist_count := hist_count entry |}.

Definition with_sum (entry : HistogramAccumulator) (n : number) : HistogramAccumulator :=
  {| hist_buckets := hist_buckets entry;
     hist_sum := Some n;
     hist_count := hist_count entry |}.

Definition with_count (entry : HistogramAccumulator) (n : number) : HistogramAccumulator :=
  {| hist_buckets := hist_buckets entry;
     hist_sum := hist_sum entry;
     hist_count := Some n |}.

(** The entry of a base name, or the one the parser would create. *)
Definition entry_of (m : ParsedMetrics) (baseName : string) : HistogramAccumulator :=
  default new_histogram (get_own baseName (histograms m)).

(** The map a name that is not taken for a histogram line is stored in. *)
Definition samples_of (m : ParsedMetrics) (name : string) : props MetricSample :=
  if is_counter_name name then counters m else gauges m.

(** The name without its last [n] characters. *)
Definition without_suffix (n : nat) (name : string) : string :=
  String.substring 0 (String.length name - n) name.

(** A label key or value free of the three characters the label text is cut
    at or cleaned of: comma, equals sign, double quote. *)
Definition is_label_atom (s : string) : bool :=
  forallb (fun c => negb (Ascii.eqb "," c) && negb (Ascii.eqb "=" c) &&
                    negb (Ascii.eqb dquote c))
          (chars s).

(** The text of a label block: the pairs [key="value"], separated by commas. *)
Definition label_pair_text (pair : string * string) : string :=
  pair.1 ++ "=" ++ dq ++ pair.2 ++ dq.

Definition label_text (pairs : list (string * string)) : string :=
  String.concat "," (label_pair_text <$> pairs).

(** The number of decimal digits of a timestamp, as its key spells it. *)
Definition digit_count (timestamp : Z) : nat := String.length (pretty timestamp).

(** A sum or count line whose base name is [__proto__]: the lines handled by
    the second branch of the dispatch that reach the prototype itself. *)
Definition writes_prototype (line : string) : bool :=
  if startsWith line "#" then false
  else
    match split_spaces line !! 0%nat, split_spaces line !! 1%nat with
    | Some (String _ _ as nameLabels), Some (String _ _) =>
        match match_name_labels nameLabels with
        | Some (name, _) =>
            negb (includes name "_bucket") &&
            (includes name "_sum" || includes name "_count") &&
            String.eqb (strip_sum_count name) "__proto__"
        | None => false
        end
    | _, _ => false
    end.

(** The number at the end of the validator's pattern:
    [-?\d+(\.\d+)?([eE][+-]?\d+)?]. *)
Definition number_re : re :=
  (Opt (Chr "-") · Plus (Class is_digit)
   · Opt (Chr "." · Plus (Class is_digit))
   · Opt (Class is_e · Opt (Class is_sign) · Plus (Class is_digit)))%re.

Definition is_nan (n : number) : bool :=
  match n with
  | NaN => true
  | _ => false
  end.

(** The fraction digits after the integer part, and what follows them. *)
Definition split_fraction (after_int : string) : string * string :=
  match after_int with
  | String "." r => (take_while is_digit r, drop_while is_digit r)
  | _ => (EmptyString, after_int)
  end.

(** [decimal_literal] after the sign. *)
Definition decimal_body (negative : bool) (body : string) : number :=
  if String.eqb body "Infinity" then Inf negative
  else
    let '(frac_part, after_frac) := split_fraction (drop_while is_digit body) in
    match radix_value 10 (take_while is_digit body ++ frac_part), exponent after_frac with
    | Some mantissa, Some e =>
        signed negative
          (inject_Z (Z.of_N mantissa) *
           Qpower 10 (e - Z.of_nat (String.length frac_part)))
    | _, _ => NaN
    end.

(** The texts of [(\.\d+)?] and of [([eE][+-]?\d+)?]. *)
Definition is_fraction_text (s : string) : Prop :=
  s = EmptyString \/
  exists f fs, s = String "." (String f fs) /\
               forallb is_digit (chars (String f fs)) = true.

Definition is_exponent_text (s : string) : Prop :=
  s = EmptyString \/
  exists e sg x xs,
    s = String e (sg ++ String x xs)%string /\ is_e e = true /\
    (sg = EmptyString \/ sg = "+" \/ sg = "-") /\
    forallb is_digit (chars (String x xs)) = true.

(** What may follow the first digit of a decimal literal. *)
Definition follows_digit (s : string) : bool :=
  match s with
  | EmptyString => true
  | String x _ => is_digit x || Ascii.eqb x "." || is_e x
  end.


(* ===================================================================== *)
(** ** The parser on concrete inputs *)
(* ===================================================================== *)

(** C8. The three lines [foo_bucket{le=0.5} 3] (the bound quoted),
    [foo_sum 10] and [foo_count 4], joined by newlines in any of their six
    orders, parse to a model whose only histogram is [foo], with the single
    bucket of bound 0.5 and count 3, sum 10 and count 4; the prototype is left
    as it was. *)
Theorem histogram_lines_any_order (lines : list string) (r : realm) :
  lines ≡ₚ [foo_bucket_line; foo_sum_line; foo_count_line] ->
  parsePrometheusMetrics (unlines lines) r =
    (Returns {| gauges := []; counters := []; histograms := [("foo", foo_entry)] |}, r).
Proof.
  intros Hp. symmetry in Hp. apply permutations_Permutation in Hp.
  assert (Hall : permutations [foo_bucket_line; foo_sum_line; foo_count_line] =
    [ [foo_bucket_line; foo_sum_line; foo_count_line];
      [foo_sum_line; foo_bucket_line; foo_count_line];
      [foo_sum_line; foo_count_line; foo_bucket_line];
      [foo_bucket_line; foo_count_line; foo_sum_line];
      [foo_count_line; foo_bucket_line; foo_sum_line];
      [foo_count_line; foo_sum_line; foo_bucket_line] ]) by reflexivity.
  rewrite Hall in Hp. clear Hall.
  apply list_elem_of_In in Hp. cbn [In] in Hp.
  destruct Hp as [<- | [<- | [<- | [<- | [<- | [<- | []]]]]]];
    vm_compute; reflexivity.
Qed.

Lemma histogram_lines_any_order_witness :
  [foo_count_line; foo_bucket_line; foo_sum_line] ≡ₚ
    [foo_bucket_line; foo_sum_line; foo_count_line] /\
  parsePrometheusMetrics (unlines [foo_count_line; foo_bucket_line; foo_sum_line]) pristine =
    (Returns {| gauges := []; counters := []; histograms := [("foo", foo_entry)] |}, pristine).
Proof.
  assert (Hperm : [foo_count_line; foo_bucket_line; foo_sum_line] ≡ₚ
                  [foo_bucket_line; foo_sum_line; foo_count_line]).
  { apply Permutation_sym, perm_trans
      with (l' := [foo_bucket_line; foo_count_line; foo_sum_line]);
      [apply perm_skip, perm_swap | apply perm_swap]. }
  split; [exact Hperm |].
  exact (histogram_lines_any_order _ pristine Hperm).
Defined.

(** C1.  The line [process_counter 7] has a name that ends with none of
    [_bucket], [_sum], [_count], and is taken for the count line of a
    histogram all the same, because the name only has to contain [_count];
    the line [latency_bucket_size 1] is likewise taken for a bucket line of
    [latency_size]. *)
Theorem suffix_dispatch_on_contained_name (r : realm) :
  endsWith "process_counter" "_bucket" = false /\
  endsWith "process_counter" "_sum" = false /\
  endsWith "process_counter" "_count" = false /\
  parsePrometheusMetrics "process_counter 7" r =
    (Returns {| gauges := []; counters := [];
                histograms := [("process_counter",
                  {| hist_buckets := []; hist_sum := None; hist_count := Some (of_Z 7) |})] |}, r) /\
  endsWith "latency_bucket_size" "_bucket" = false /\
  parsePrometheusMetrics "latency_bucket_size 1" r =
    (Returns {| gauges := []; counters := [];
                histograms := [("latency_size",
                  {| hist_buckets := [{| bucket_le := None; bucket_count := of_Z 1 |}];
                     hist_sum := None; hist_count := None |})] |}, r).
Proof. repeat split; vm_compute; reflexivity. Qed.

(** C2.  The line [job_summary_total 3] has a name that ends with none of
    the three suffixes and contains [total], yet no counter is stored: the
    name contains [_sum], so the value becomes the sum of a histogram named
    like the metric. *)
Theorem counter_lost_to_histogram (r : realm) :
  endsWith "job_summary_total" "_bucket" = false /\
  endsWith "job_summary_total" "_sum" = false /\
  endsWith "job_summary_total" "_count" = false /\
  includes "job_summary_total" "total" = true /\
  parsePrometheusMetrics "job_summary_total 3" r =
    (Returns {| gauges := []; counters := [];
                histograms := [("job_summary_total",
                  {| hist_buckets := []; hist_sum := Some (of_Z 3); hist_count := None |})] |}, r).
Proof. repeat split; vm_compute; reflexivity. Qed.

(** The three names the specification singles out are classified as it
    says. *)
Lemma named_examples_classified (r : realm) :
  parsePrometheusMetrics
    (unlines ["requests_total 1"; "request_errors 2"; "ha_connections 3"]) r =
    (Returns {| gauges := [("ha_connections", {| sample_value := of_Z 3; sample_labels := [] |})];
                counters := [("requests_total", {| sample_value := of_Z 1; sample_labels := [] |});
                             ("request_errors", {| sample_value := of_Z 2; sample_labels := [] |})];
                histograms := [] |}, r).
Proof. vm_compute; reflexivity. Qed.

(** C7.  The line [constructor_bucket 1] is accepted by the validator and
    makes the parser throw: the entry looked up under [constructor] is the
    function every object inherits, which is truthy and has no [buckets]. *)
Theorem parse_throws_on_inherited_name (r : realm) :
  isValidPrometheusMetrics "constructor_bucket 1" = true /\
  parsePrometheusMetrics "constructor_bucket 1" r = (Throws TypeError, r).
Proof. split; vm_compute; reflexivity. Qed.

(** A value that is not a number is kept as [NaN]. *)
Lemma non_numeric_value_is_NaN (r : realm) :
  parsePrometheusMetrics "up yes" r =
    (Returns {| gauges := [("up", {| sample_value := NaN; sample_labels := [] |})];
                counters := []; histograms := [] |}, r).
Proof. vm_compute; reflexivity. Qed.

(* ===================================================================== *)
(** ** Lines that are skipped *)
(* ===================================================================== *)

Lemma space_is_not_hash (c : ascii) (rest : string) :
  is_space c = true -> startsWith (String c rest) "#" = false.
Proof.
  intros H. unfold startsWith. cbn [String.prefix].
  destruct (ascii_dec "#" c) as [<- | ]; [discriminate H | done].
Qed.

Lemma split_spaces_leading (s : string) (c : ascii) :
  is_space c = true -> exists ps, split_spaces (String c s) = EmptyString :: ps.
Proof.
  revert c. induction s as [| c' s IH]; intros c Hc; simpl; rewrite Hc.
  - eauto.
  - destruct (is_space c') eqn:Hc'; [| eauto].
    destruct (IH c' Hc') as [ps Hps]. simpl in Hps. rewrite Hc' in Hps. eauto.
Qed.

Lemma parse_line_leading_space (c : ascii) (rest : string) r metrics :
  is_space c = true -> parse_line (String c rest) r metrics = (Returns metrics, r).
Proof.
  intros Hc. unfold parse_line.
  destruct (split_spaces_leading rest c Hc) as [ps ->].
  rewrite (space_is_not_hash c rest Hc). reflexivity.
Qed.

Lemma parse_lines_app (l1 l2 : list string) r metrics :
  parse_lines (l1 ++ l2) r metrics =
    match parse_lines l1 r metrics with
    | (Returns metrics', r') => parse_lines l2 r' metrics'
    | (Throws e, r') => (Throws e, r')
    end.
Proof.
  revert r metrics. induction l1 as [| l l1 IH]; intros r metrics; simpl; [done |].
  destruct (parse_line l r metrics) as [[m' | e] r']; [apply IH | done].
Qed.

(** C10.  A line that begins with a white-space character is skipped by the
    parser whatever follows, so it can be removed from among any lines
    without changing the result; and the one-line input [ foo 1], with its
    leading space, is accepted by the validator while the parser returns the
    empty model. *)
Theorem leading_space_line_skipped (c : ascii) (rest : string) :
  is_space c = true ->
  (exists ps, split_spaces (String c rest) = EmptyString :: ps) /\
  (forall r metrics, parse_line (String c rest) r metrics = (Returns metrics, r)) /\
  (forall before after r metrics,
     parse_lines (before ++ String c rest :: after) r metrics =
     parse_lines (before ++ after) r metrics) /\
  isValidPrometheusMetrics " foo 1" = true /\
  (forall r, parsePrometheusMetrics " foo 1" r = (Returns empty_metrics, r)).
Proof.
  intros Hc. split; [by apply split_spaces_leading |].
  split; [intros; by apply parse_line_leading_space |].
  split; [| split; [by vm_compute | intros r; by vm_compute]].
  intros before after r metrics. rewrite !parse_lines_app.
  destruct (parse_lines before r metrics) as [[m' | e] r']; [| done].
  simpl. by rewrite parse_line_leading_space.
Qed.

Lemma leading_space_line_skipped_witness :
  is_space " " = true /\
  parse_line " foo 1" pristine empty_metrics = (Returns empty_metrics, pristine).
Proof.
  split; [reflexivity |].
  refine (proj1 (proj2 (leading_space_line_skipped " " "foo 1" _)) pristine empty_metrics).
  reflexivity.
Defined.

(* ===================================================================== *)
(** ** Where a sample is stored *)
(* ===================================================================== *)

Lemma Forall_keys_set_own {A} (P : string -> Prop) (o : props A) k v :
  P k -> Forall P (keys o) -> Forall P (keys (set_own k v o)).
Proof.
  intros Hk. induction o as [| [k' v'] o IH]; simpl; intros Ho.
  - by constructor.
  - apply Forall_cons in Ho as [Hk' Ho].
    destruct (String.eqb k k'); simpl; constructor; auto.
Qed.

Lemma Forall_keys_assign {A} (P : string -> Prop) (o : props A) k v :
  P k -> Forall P (keys o) -> Forall P (keys (assign o k v)).
Proof.
  intros Hk Ho. unfold assign. destruct (String.eqb k "__proto__"); [done |].
  by apply Forall_keys_set_own.
Qed.

Lemma parse_line_classified line r m r' m' :
  parse_line line r m = (Returns m', r') -> classified m -> classified m'.
Proof.
  unfold parse_line, classified, is_histogram_name, is_counter_name.
  intros Hstep [Hg Hc].
  repeat case_match; simplify_eq; simpl; try (split; assumption).
  - split; [assumption |]. apply Forall_keys_assign; [| assumption].
    repeat match goal with
           | H : _ || _ = false |- _ => apply orb_false_iff in H as [? ?]
           end.
    split; [by repeat (apply orb_false_iff; split) | assumption].
  - split; [| assumption]. apply Forall_keys_assign; [| assumption].
    repeat match goal with
           | H : _ || _ = false |- _ => apply orb_false_iff in H as [? ?]
           end.
    split; by repeat (apply orb_false_iff; split).
Qed.

Lemma parse_lines_classified lines r m r' m' :
  parse_lines lines r m = (Returns m', r') -> classified m -> classified m'.
Proof.
  revert r m. induction lines as [| line lines IH]; simpl; intros r m Hrun Hm.
  - by simplify_eq.
  - destruct (parse_line line r m) as [[m1 | e] r1] eqn:Hstep; [| done].
    eapply IH; [exact Hrun |]. by eapply parse_line_classified.
Qed.

(** C3, as the code has it.  In every model the parser returns, no name is a
    key of both [gauges] and [counters], and no key of either contains
    [_bucket], [_sum] or [_count].  The keys of [histograms] are base names,
    which the two sample maps do not exclude. *)
Theorem gauges_and_counters_disjoint (data : string) (r r' : realm) (m : ParsedMetrics) :
  parsePrometheusMetrics data r = (Returns m, r') ->
  (forall k : string, ~ (k ∈ keys (gauges m) /\ k ∈ keys (counters m))) /\
  (forall k : string, k ∈ keys (gauges m) \/ k ∈ keys (counters m) ->
     includes k "_bucket" = false /\ includes k "_sum" = false /\
     includes k "_count" = false).
Proof.
  intros Hrun.
  assert (Hcl : classified m).
  { eapply parse_lines_classified; [exact Hrun |]. split; constructor. }
  destruct Hcl as [Hg Hc]. rewrite Forall_forall in Hg, Hc.
  split.
  - intros k [Hkg Hkc]. destruct (Hg k Hkg) as [_ H1], (Hc k Hkc) as [_ H2]. congruence.
  - intros k [Hk | Hk]; [destruct (Hg k Hk) as [H _] | destruct (Hc k Hk) as [H _]];
      unfold is_histogram_name in H;
      apply orb_false_iff in H as [H H3]; apply orb_false_iff in H as [H1 H2]; done.
Qed.

Lemma gauges_and_counters_disjoint_witness :
  parsePrometheusMetrics (unlines ["requests_total 1"; "ha_connections 3"]) pristine =
    (Returns
       {| gauges := [("ha_connections", {| sample_value := of_Z 3; sample_labels := [] |})];
          counters := [("requests_total", {| sample_value := of_Z 1; sample_labels := [] |})];
          histograms := [] |}, pristine) /\
  ~ ("requests_total" ∈ keys [("ha_connections", {| sample_value := of_Z 3; sample_labels := [] |})] /\
     "requests_total" ∈ keys [("requests_total", {| sample_value := of_Z 1; sample_labels := [] |})]).
Proof.
  assert (Hrun :
    parsePrometheusMetrics (unlines ["requests_total 1"; "ha_connections 3"]) pristine =
      (Returns
         {| gauges := [("ha_connections", {| sample_value := of_Z 3; sample_labels := [] |})];
            counters := [("requests_total", {| sample_value := of_Z 1; sample_labels := [] |})];
            histograms := [] |}, pristine)) by (vm_compute; reflexivity).
  split; [exact Hrun |].
  exact (proj1 (gauges_and_counters_disjoint _ _ _ _ Hrun) "requests_total").
Defined.

(** C3, counterexample.  After the lines [foo 1] and [foo_sum 2] the name
    [foo] is a key of [gauges] and a key of [histograms]; after the lines
    [x_total 1] and [x_total_sum 2] the name [x_total] is a key of
    [counters] and a key of [histograms]. *)
Lemma name_in_two_maps :
  (exists m, parsePrometheusMetrics (unlines ["foo 1"; "foo_sum 2"]) pristine =
               (Returns m, pristine) /\
             "foo" ∈ keys (gauges m) /\ "foo" ∈ keys (histograms m) /\
             ~ in_at_most_one_map m) /\
  (exists m, parsePrometheusMetrics (unlines ["x_total 1"; "x_total_sum 2"]) pristine =
               (Returns m, pristine) /\
             "x_total" ∈ keys (counters m) /\ "x_total" ∈ keys (histograms m) /\
             ~ in_at_most_one_map m).
Proof.
  split; eexists; (split; [vm_compute; reflexivity |]);
    (split; [apply list_elem_of_here |]); (split; [apply list_elem_of_here |]).
  - intros H. destruct (H "foo") as (_ & Hgh & _). apply Hgh.
    split; apply list_elem_of_here.
  - intros H. destruct (H "x_total") as (_ & _ & Hch). apply Hch.
    split; apply list_elem_of_here.
Qed.

(* ===================================================================== *)
(** ** Rejected uploads *)
(* ===================================================================== *)

Section Rejection.

Variable generateDashboard : realm -> ParsedMetrics -> Z + string -> string.
Variable uploadFormTemplate : list (string * Z) -> string.


(** An upload of the line [constructor_bucket 1] passes the validator and
    the request fails with the error of the parser, before anything is
    stored. *)
Lemma upload_of_inherited_name_throws (now : Z) :
  handleRequest generateDashboard uploadFormTemplate (upload "constructor_bucket 1") now fresh =
    (Throws TypeError, fresh).
Proof. vm_compute. reflexivity. Qed.

End Rejection.



(* ===================================================================== *)
(** ** The retention policy *)
(* ===================================================================== *)

Global Instance string_le_total : Total string_le.
Proof. intros a b. apply String.leb_total. Qed.

Global Instance string_le_antisymm : AntiSymm (=) string_le.
Proof. intros a b. apply String.leb_antisym. Qed.

Global Instance string_le_trans : Transitive string_le.
Proof.
  unfold string_le, String.leb. intros a.
  induction a as [| x a IH]; intros [| y b] [| z c]; simpl; try done.
  unfold Ascii.compare.
  destruct (N.compare_spec (N_of_ascii x) (N_of_ascii y)) as [Hxy | Hxy | Hxy];
    destruct (N.compare_spec (N_of_ascii y) (N_of_ascii z)) as [Hyz | Hyz | Hyz];
    destruct (N.compare_spec (N_of_ascii x) (N_of_ascii z)) as [Hxz | Hxz | Hxz];
    try done; try lia.
  apply IH.
Qed.

Lemma sorted_keys_perm (l : list string) : sorted_keys l ≡ₚ l.
Proof. unfold sorted_keys. by rewrite reverse_Permutation, merge_sort_Permutation. Qed.

Lemma sorted_keys_sorted (l : list string) :
  StronglySorted (flip string_le) (sorted_keys l).
Proof.
  apply Sorted_StronglySorted; [apply _ |].
  apply Sorted_reverse, Sorted_merge_sort; apply _.
Qed.

Lemma sorted_keys_merge_sort (l : list string) :
  sorted_keys (merge_sort string_le l) = sorted_keys l.
Proof.
  unfold sorted_keys. f_equal.
  apply (Sorted_unique string_le).
  - apply Sorted_merge_sort; apply _.
  - apply Sorted_merge_sort; apply _.
  - by rewrite !merge_sort_Permutation.
Qed.

(** What one save does, in one step. *)
Lemma save_run (timestamp : Z) (metricsData : string) (w : world) :
  save timestamp metricsData w =
    (Returns tt,
     let value := {| env_data := metricsData; env_timestamp := timestamp |} in
     match sorted_keys (stored_keys w) with
     | _ :: key1 :: _ =>
         {| kv := <[snapshot_key timestamp := value]> (delete key1 (kv w));
            object_prototype := object_prototype w;
            log := log w ++ [OpList; OpDelete key1; OpPut (snapshot_key timestamp) value] |}
     | _ =>
         {| kv := <[snapshot_key timestamp := value]> (kv w);
            object_prototype := object_prototype w;
            log := log w ++ [OpList; OpPut (snapshot_key timestamp) value] |}
     end).
Proof.
  unfold save, bind, kv_list, stored_keys. cbn beta iota.
  rewrite sorted_keys_merge_sort.
  destruct (sorted_keys (elements (dom (kv w)))) as [| k0 [| k1 ks]];
    unfold kv_put, kv_delete, ret, issue; simpl; rewrite <- ?app_assoc; reflexivity.
Qed.

(** C5.  Whatever is stored, [save] works on the stored keys in descending
    order of strings: the list [ks] it uses is a rearrangement of the stored
    keys in which every key is at least, as a string, every key after it.
    With two keys or more it issues the deletion of the second key of [ks]
    and nothing else before it writes the snapshot under the prefix followed
    by the decimal digits of the timestamp; with fewer it only writes.  The
    order is not the order of the numbers: after uploads at 9, 10 and 11 the
    snapshots of 9 and 11 remain, the key of 10 being below the key of 9. *)
Theorem save_deletes_second_key_descending (timestamp : Z) (metricsData : string) (w : world) :
  let value := {| env_data := metricsData; env_timestamp := timestamp |} in
  let key := String.append "metrics_" (pretty timestamp) in
  (exists ks : list string,
     ks ≡ₚ stored_keys w /\
     StronglySorted (fun a b => string_le b a) ks /\
     save timestamp metricsData w =
       (Returns tt,
        match ks with
        | _ :: second :: _ =>
            {| kv := <[key := value]> (delete second (kv w));
               object_prototype := object_prototype w;
               log := log w ++ [OpList; OpDelete second; OpPut key value] |}
        | _ =>
            {| kv := <[key := value]> (kv w);
               object_prototype := object_prototype w;
               log := log w ++ [OpList; OpPut key value] |}
        end)) /\
  snapshot_key 1700000000000 = "metrics_1700000000000" /\
  string_le (snapshot_key 10) (snapshot_key 9) /\
  kv (after (save_all [(9%Z, "a"); (10%Z, "b"); (11%Z, "c")] fresh)) =
    {[ "metrics_9" := {| env_data := "a"; env_timestamp := 9 |};
       "metrics_11" := {| env_data := "c"; env_timestamp := 11 |} ]}.
Proof.
  intros value key. split; [| split; [reflexivity | split; [reflexivity |]]].
  - exists (sorted_keys (stored_keys w)).
    split; [apply sorted_keys_perm |]. split; [apply sorted_keys_sorted |].
    apply save_run.
  - vm_compute. reflexivity.
Qed.

Lemma states_after_app (store : gmap string envelope) (ops1 ops2 : list kv_op) :
  states_after store (ops1 ++ ops2) =
  states_after store ops1 ++ states_after (foldl apply_op store ops1) ops2.
Proof.
  revert store. induction ops1 as [| op ops1 IH]; intros store; simpl; [done |].
  by rewrite IH.
Qed.

Lemma length_sorted_keys (w : world) :
  length (sorted_keys (stored_keys w)) = size (kv w).
Proof.
  rewrite (Permutation_length (sorted_keys_perm _)). unfold stored_keys.
  rewrite <- (size_dom (D := gset string)). reflexivity.
Qed.

Lemma sorted_key_stored (w : world) (k : string) :
  k ∈ sorted_keys (stored_keys w) <-> is_Some (kv w !! k).
Proof.
  rewrite (sorted_keys_perm _). unfold stored_keys.
  by rewrite elem_of_elements, elem_of_dom.
Qed.

(** One save from a namespace of at most two entries: the operations it
    issues account for the new contents, which never exceed two entries. *)
Lemma save_bounded (timestamp : Z) (metricsData : string) (w : world) :
  size (kv w) <= 2 ->
  exists ops,
    log (after (save timestamp metricsData w)) = log w ++ ops /\
    kv (after (save timestamp metricsData w)) = foldl apply_op (kv w) ops /\
    Forall (fun store => size store <= 2) (states_after (kv w) ops) /\
    size (kv (after (save timestamp metricsData w))) <= 2.
Proof.
  intros Hsize. rewrite save_run. unfold after. cbn [snd].
  pose proof (length_sorted_keys w) as Hlen.
  pose proof (sorted_key_stored w) as Hin.
  generalize (snapshot_key timestamp)
             {| env_data := metricsData; env_timestamp := timestamp |}.
  intros key value.
  assert (Hput : forall store : gmap string envelope,
            size store <= 1 -> size (<[key := value]> store) <= 2).
  { intros store Hs. rewrite map_size_insert.
    destruct (store !! key); cbn [id]; lia. }
  destruct (sorted_keys (stored_keys w)) as [| k0 [| k1 ks]];
    cbn [kv log length] in *.
  - exists [OpList; OpPut key value]. cbn [foldl apply_op states_after].
    assert (size (<[key := value]> (kv w)) <= 2) by (apply Hput; lia).
    split; [reflexivity |]. split; [reflexivity |]. split; [| done].
    apply Forall_cons; split; [lia |]. apply Forall_cons; split; [done |].
    apply Forall_nil_2.
  - exists [OpList; OpPut key value]. cbn [foldl apply_op states_after].
    assert (size (<[key := value]> (kv w)) <= 2) by (apply Hput; lia).
    split; [reflexivity |]. split; [reflexivity |]. split; [| done].
    apply Forall_cons; split; [lia |]. apply Forall_cons; split; [done |].
    apply Forall_nil_2.
  - exists [OpList; OpDelete k1; OpPut key value]. cbn [foldl apply_op states_after].
    assert (Hk1 : is_Some (kv w !! k1)).
    { apply Hin. apply list_elem_of_further, list_elem_of_here. }
    assert (Hdel : size (delete k1 (kv w)) <= 1).
    { rewrite map_size_delete_Some by done. lia. }
    assert (size (<[key := value]> (delete k1 (kv w))) <= 2) by (by apply Hput).
    split; [reflexivity |]. split; [reflexivity |]. split; [| done].
    apply Forall_cons; split; [lia |]. apply Forall_cons; split; [lia |].
    apply Forall_cons; split; [done |]. apply Forall_nil_2.
Qed.

Lemma save_all_bounded (uploads : list (Z * string)) (w : world) :
  size (kv w) <= 2 ->
  exists ops,
    log (after (save_all uploads w)) = log w ++ ops /\
    kv (after (save_all uploads w)) = foldl apply_op (kv w) ops /\
    Forall (fun store => size store <= 2) (states_after (kv w) ops) /\
    size (kv (after (save_all uploads w))) <= 2.
Proof.
  revert w. induction uploads as [| [timestamp metricsData] uploads IH]; intros w Hsize.
  - exists []. simpl. rewrite app_nil_r. repeat split; try done.
  - destruct (save_bounded timestamp metricsData w Hsize) as (ops1 & Hlog1 & Hkv1 & Hall1 & Hsize1).
    simpl save_all. unfold bind. rewrite save_run in *. unfold after in *. cbn [snd] in *.
    match goal with
    | |- context [save_all uploads ?w1] =>
        destruct (IH w1 Hsize1) as (ops2 & Hlog2 & Hkv2 & Hall2 & Hsize2)
    end.
    exists (ops1 ++ ops2). unfold after in *.
    rewrite Hlog2, Hlog1, Hkv2, Hkv1, foldl_app, states_after_app, app_assoc.
    repeat split; try done.
    + apply Forall_app. split; [done |]. by rewrite <- Hkv1.
    + by rewrite <- Hkv1, <- Hkv2.
Qed.

(** C4, as the code has it.  From an empty namespace and any sequence of
    saves, the namespace never holds more than two entries: not at the end,
    and not after any of the operations issued on the way, which account for
    its contents.  A save on a namespace of two entries leaves exactly two
    whenever the key it writes is not the greatest stored key, as is the case
    for a timestamp under which nothing is stored yet. *)
Theorem at_most_two_snapshots (uploads : list (Z * string)) (timestamp : Z) (metricsData : string) (w : world) :
  (let w' := after (save_all uploads fresh) in
   kv w' = foldl apply_op ∅ (log w') /\
   Forall (fun store => size store <= 2) (states_after ∅ (log w')) /\
   size (kv w') <= 2) /\
  (size (kv w) = 2 ->
   ~ (is_Some (kv w !! snapshot_key timestamp) /\
      forall k, is_Some (kv w !! k) -> string_le k (snapshot_key timestamp)) ->
   size (kv (after (save timestamp metricsData w))) = 2).
Proof.
  split.
  - destruct (save_all_bounded uploads fresh) as (ops & Hlog & Hkv & Hall & Hsize).
    { simpl. rewrite map_size_empty. lia. }
    simpl in Hlog, Hkv, Hall. cbn zeta. rewrite Hlog. by rewrite <- Hkv.
  - intros Hsize Hnew. rewrite save_run. unfold after. cbn [snd].
    pose proof (length_sorted_keys w) as Hlen.
    pose proof (sorted_key_stored w) as Hin.
    pose proof (sorted_keys_sorted (stored_keys w)) as Hsorted.
    destruct (sorted_keys (stored_keys w)) as [| k0 [| k1 [| k2 ks]]];
      simpl in Hlen; try lia. cbn [kv].
    assert (Hk1 : is_Some (kv w !! k1)).
    { apply Hin. apply list_elem_of_further, list_elem_of_here. }
    assert (Hle : string_le k1 k0).
    { apply StronglySorted_inv in Hsorted as [_ Hall].
      by apply Forall_cons in Hall as [? _]. }
    assert (Hne : snapshot_key timestamp <> k0).
    { intros Heq. apply Hnew. rewrite Heq. split.
      - apply Hin. apply list_elem_of_here.
      - intros k Hk. apply Hin in Hk.
        apply elem_of_cons in Hk as [-> | Hk]; [by destruct (total string_le k0 k0) |].
        apply list_elem_of_singleton in Hk as ->. done. }
    rewrite map_size_insert_None.
    + rewrite map_size_delete_Some by done. lia.
    + destruct (decide (snapshot_key timestamp = k1)) as [Heq | Hne1].
      * rewrite Heq. apply lookup_delete_eq.
      * rewrite lookup_delete_ne by congruence.
        apply eq_None_not_Some. intros Hsome. apply Hin in Hsome.
        apply elem_of_cons in Hsome as [? | Hsome]; [done |].
        by apply list_elem_of_singleton in Hsome.
Qed.

Lemma at_most_two_snapshots_witness :
  size (kv (after (save_all [(1%Z, "a"); (2%Z, "b")] fresh))) = 2 /\
  kv (after (save_all [(1%Z, "a"); (2%Z, "b")] fresh)) !! snapshot_key 3 = None /\
  size (kv (after (save 3 "c" (after (save_all [(1%Z, "a"); (2%Z, "b")] fresh))))) = 2.
Proof.
  split; [vm_compute; reflexivity |]. split; [vm_compute; reflexivity |].
  refine (proj2 (at_most_two_snapshots [] 3 "c" (after (save_all [(1%Z, "a"); (2%Z, "b")] fresh))) _ _).
  - vm_compute. reflexivity.
  - intros [Hsome _]. vm_compute in Hsome. by destruct Hsome.
Defined.

(** C4, counterexample.  After the uploads at 1 and 2 two snapshots are
    stored; a third upload, again at 2, deletes the snapshot of 1 and
    overwrites that of 2, and leaves one. *)
Lemma third_save_leaves_one :
  size (kv (after (save_all [(1%Z, "a"); (2%Z, "b")] fresh))) = 2 /\
  size (kv (after (save 2 "c" (after (save_all [(1%Z, "a"); (2%Z, "b")] fresh))))) = 1 /\
  size (kv (after (save 2 "c" (after (save_all [(1%Z, "a"); (2%Z, "b")] fresh))))) <> 2.
Proof. vm_compute. repeat split. discriminate. Qed.

(* ===================================================================== *)
(** ** The matcher decides the language of a pattern *)
(* ===================================================================== *)

Lemma nullable_spec (r : re) : nullable r = true <-> matches r [].
Proof.
  induction r as [| | p | a IHa b IHb | a IHa b IHb | a IHa]; simpl.
  - split; [done | inversion 1].
  - split; [constructor | done].
  - split; [done | inversion 1].
  - rewrite andb_true_iff, IHa, IHb. split.
    + intros [Ha Hb]. by apply (m_cat a b [] []).
    + intros H. inversion H as [| | ? ? s1 s2 H1 H2 | | | |]; subst.
      match goal with
      | Heq : _ ++ _ = [] |- _ => apply app_eq_nil in Heq as [-> ->]
      end. done.
  - rewrite orb_true_iff, IHa, IHb. split.
    + intros [Ha | Hb]; [by apply m_alt_l | by apply m_alt_r].
    + inversion 1; subst; auto.
  - split; [constructor | done].
Qed.

Lemma star_cons_inv (a : re) (c : ascii) (s : list ascii) :
  matches (Star a) (c :: s) ->
  exists s1 s2, s = s1 ++ s2 /\ matches a (c :: s1) /\ matches (Star a) s2.
Proof.
  intros H. remember (Star a) as r eqn:Hr. remember (c :: s) as t eqn:Ht.
  revert s Ht.
  induction H as [| | | | | | a' s1 s2 H1 _ H2 IH2]; intros s' Ht; try discriminate.
  injection Hr as ->. destruct s1 as [| c' s1].
  - by apply IH2.
  - simpl in Ht. injection Ht as -> <-. eauto.
Qed.

Lemma deriv_spec (c : ascii) (r : re) (s : list ascii) :
  matches (deriv c r) s <-> matches r (c :: s).
Proof.
  revert s. induction r as [| | p | a IHa b IHb | a IHa b IHb | a IHa]; intros s; simpl.
  - split; inversion 1.
  - split; inversion 1.
  - destruct (p c) eqn:Hp; split.
    + inversion 1; subst. by constructor.
    + inversion 1; subst. constructor.
    + inversion 1.
    + inversion 1; subst. congruence.
  - assert (Hleft : matches (Cat (deriv c a) b) s ->  matches (Cat a b) (c :: s)).
    { inversion 1 as [| | ? ? s1 s2 H1 H2 | | | |]; subst.
      apply IHa in H1. by apply (m_cat a b (c :: s1) s2). }
    assert (Hback : matches (Cat a b) (c :: s) ->
              matches (Cat (deriv c a) b) s \/ (matches a [] /\ matches (deriv c b) s)).
    { intros H. inversion H as [| | ? ? s1 s2 H1 H2 | | | |]; subst.
      match goal with Heq : _ ++ _ = _ :: _ |- _ => rename Heq into Hsplit end.
      destruct s1 as [| c' s1]; simpl in Hsplit.
      - subst s2. right. split; [done | by apply IHb].
      - injection Hsplit as -> <-. left. constructor; [by apply IHa | done]. }
    destruct (nullable a) eqn:Hn.
    + split.
      * inversion 1; subst; [by apply Hleft |].
        apply (m_cat a b [] (c :: s)); [by apply nullable_spec | by apply IHb].
      * intros H. destruct (Hback H) as [H1 | [_ H2]]; [by apply m_alt_l | by apply m_alt_r].
    + split; [exact Hleft |].
      intros H. destruct (Hback H) as [H1 | [H1 _]]; [done |].
      apply nullable_spec in H1. congruence.
  - split.
    + inversion 1; subst; [apply m_alt_l | apply m_alt_r]; by (apply IHa || apply IHb).
    + inversion 1; subst; [apply m_alt_l | apply m_alt_r]; by (apply IHa || apply IHb).
  - split.
    + inversion 1 as [| | ? ? s1 s2 H1 H2 | | | |]; subst.
      apply IHa in H1. by apply (m_star_cons a (c :: s1) s2).
    + intros H. apply star_cons_inv in H as (s1 & s2 & -> & H1 & H2).
      constructor; [by apply IHa | done].
Qed.

Lemma test_chars_spec (r : re) (s : list ascii) :
  test_chars r s = true <-> matches r s.
Proof.
  revert r. induction s as [| c s IH]; intros r; simpl.
  - apply nullable_spec.
  - by rewrite IH, deriv_spec.
Qed.

(* ===================================================================== *)
(** ** The line pattern, in words *)
(* ===================================================================== *)

Lemma matches_cat (a b : re) (s : list ascii) :
  matches (Cat a b) s <-> exists s1 s2, s = s1 ++ s2 /\ matches a s1 /\ matches b s2.
Proof.
  split.
  - inversion 1; subst; eauto.
  - intros (s1 & s2 & -> & H1 & H2). by constructor.
Qed.

Lemma matches_opt (a : re) (s : list ascii) :
  matches (Opt a) s <-> s = [] \/ matches a s.
Proof.
  unfold Opt. split.
  - inversion 1 as [| | | | ? ? ? H' | |]; subst; [by right |]. inversion H'. by left.
  - intros [-> | H]; [apply m_alt_r; constructor | by apply m_alt_l].
Qed.

Lemma matches_class (p : ascii -> bool) (s : list ascii) :
  matches (Class p) s <-> exists c, s = [c] /\ p c = true.
Proof.
  split.
  - inversion 1; subst; eauto.
  - intros (c & -> & H). by constructor.
Qed.

Lemma matches_chr (c : ascii) (s : list ascii) : matches (Chr c) s <-> s = [c].
Proof.
  unfold Chr. rewrite matches_class. split.
  - intros (c' & -> & H). by apply Ascii.eqb_eq in H as ->.
  - intros ->. exists c. split; [done | apply Ascii.eqb_refl].
Qed.

Lemma matches_star_class (p : ascii -> bool) (s : list ascii) :
  matches (Star (Class p)) s <-> all_chars p s.
Proof.
  split.
  - intros H. remember (Star (Class p)) as r eqn:Hr.
    induction H as [| | | | | | a s1 s2 H1 _ H2 IH2]; try discriminate.
    + constructor.
    + injection Hr as ->. apply matches_class in H1 as (c & -> & Hc).
      constructor; [done | by apply IH2].
  - induction 1 as [| c s Hc _ IH]; [constructor |].
    apply (m_star_cons (Class p) [c] s); [by constructor | done].
Qed.

Lemma matches_plus_class (p : ascii -> bool) (s : list ascii) :
  matches (Plus (Class p)) s <-> some_chars p s.
Proof.
  unfold Plus, some_chars. rewrite matches_cat. split.
  - intros (s1 & s2 & -> & H1 & H2).
    apply matches_class in H1 as (c & -> & Hc). apply matches_star_class in H2.
    split; [done | by constructor].
  - intros [Hne Hall]. destruct Hall as [| c s Hc Hall]; [done |].
    exists [c], s. split; [done |].
    split; [by constructor | by apply matches_star_class].
Qed.

Lemma matches_label_block (s : list ascii) :
  matches (Chr "{" · Star (Class is_dot) · Chr "}")%re s <-> label_block s.
Proof.
  unfold label_block. rewrite matches_cat. split.
  - intros (s1 & s2 & -> & H1 & H2). apply matches_chr in H1 as ->.
    apply matches_cat in H2 as (s2' & s3 & -> & H2 & H3).
    apply matches_chr in H3 as ->. apply matches_star_class in H2. eauto.
  - intros (inner & -> & Hall). exists ["{"%char], (inner ++ ["}"%char]).
    split; [done |]. split; [by apply matches_chr |].
    apply matches_cat. exists inner, ["}"%char].
    split; [done |]. split; [by apply matches_star_class | by apply matches_chr].
Qed.

Lemma matches_fraction (s : list ascii) :
  matches (Chr "." · Plus (Class is_digit))%re s <-> fraction s.
Proof.
  unfold fraction. rewrite matches_cat. split.
  - intros (s1 & s2 & -> & H1 & H2). apply matches_chr in H1 as ->.
    apply matches_plus_class in H2. eauto.
  - intros (digits & -> & H). exists ["."%char], digits.
    split; [done |]. split; [by apply matches_chr | by apply matches_plus_class].
Qed.

Lemma is_sign_cases (c : ascii) :
  is_sign c = true <-> c = "+"%char \/ c = "-"%char.
Proof.
  unfold is_sign. rewrite orb_true_iff, !Ascii.eqb_eq. done.
Qed.

Lemma matches_exponent_part (s : list ascii) :
  matches (Class is_e · Opt (Class is_sign) · Plus (Class is_digit))%re s
  <-> exponent_part s.
Proof.
  unfold exponent_part. rewrite matches_cat. split.
  - intros (s1 & s2 & -> & H1 & H2). apply matches_class in H1 as (e & -> & He).
    apply matches_cat in H2 as (sg & digits & -> & H2 & H3).
    apply matches_plus_class in H3. apply matches_opt in H2.
    exists e, sg, digits. split; [done |]. split; [done |]. split; [| done].
    destruct H2 as [-> | H2]; [by left | right].
    apply matches_class in H2 as (c & -> & Hc).
    apply is_sign_cases in Hc as [-> | ->]; auto.
  - intros (e & sg & digits & -> & He & Hsg & Hd). exists [e], (sg ++ digits).
    split; [done |]. split; [by constructor |].
    apply matches_cat. exists sg, digits. split; [done |].
    split; [| by apply matches_plus_class].
    apply matches_opt. destruct Hsg as [-> | [-> | ->]]; [by left | right | right];
      by constructor.
Qed.

Lemma matches_metric_line (s : list ascii) :
  matches metric_line_re s <-> sample_line s.
Proof.
  unfold metric_line_re, sample_line, number_text, identifier. split.
  - intros H.
    apply matches_cat in H as (s1 & t1 & -> & H1 & H).
    apply matches_cat in H as (s2 & t2 & -> & H2 & H).
    apply matches_cat in H as (s3 & t3 & -> & H3 & H).
    apply matches_cat in H as (s4 & t4 & -> & H4 & H).
    apply matches_cat in H as (s5 & t5 & -> & H5 & H).
    apply matches_cat in H as (s6 & t6 & -> & H6 & H).
    apply matches_cat in H as (s7 & s8 & -> & H7 & H8).
    apply matches_class in H1 as (c & -> & Hc).
    apply matches_star_class in H2.
    apply matches_opt in H3. rewrite matches_label_block in H3.
    apply matches_plus_class in H4.
    apply matches_opt in H5. rewrite matches_chr in H5.
    apply matches_plus_class in H6.
    apply matches_opt in H7. rewrite matches_fraction in H7.
    apply matches_opt in H8. rewrite matches_exponent_part in H8.
    exists (c :: s2), s3, s4, (s5 ++ s6 ++ s7 ++ s8).
    split; [done |]. split; [by eauto |]. split; [done |]. split; [done |].
    exists s5, s6, s7, s8. done.
  - intros (id & block & space & number & -> & (c & rest & -> & Hc & Hrest)
            & Hblock & Hspace & (sign & int & frac & exp & -> & Hsign & Hint & Hfrac & Hexp)).
    apply (m_cat _ _ [c] (rest ++ block ++ space ++ sign ++ int ++ frac ++ exp));
      [by constructor |].
    apply m_cat; [by apply matches_star_class |].
    apply m_cat; [apply matches_opt; by rewrite matches_label_block |].
    apply m_cat; [by apply matches_plus_class |].
    apply m_cat; [apply matches_opt; by rewrite matches_chr |].
    apply m_cat; [by apply matches_plus_class |].
    apply m_cat; [apply matches_opt; by rewrite matches_fraction |].
    apply matches_opt. by rewrite matches_exponent_part.
Qed.

Lemma test_metric_line (line : string) :
  test metric_line_re line = true <-> sample_line (chars line).
Proof. unfold test, chars. by rewrite test_chars_spec, matches_metric_line. Qed.

(** C6, as the code has it.  The validator accepts exactly the inputs of
    which, once the white space around the whole input is removed, some line
    starts with [#] or is, once the white space around the line is removed, a
    sample line: an identifier, an optional label block, white space and a
    number.  It is a total function, so nothing is thrown.  The empty input
    is refused, the comment line followed by [foo 1] is accepted, and
    [garbage] followed by a newline is refused. *)
Theorem validator_accepts_marked_or_sample_line (data : string) :
  (isValidPrometheusMetrics data = true <->
   exists line, line ∈ split newline (trim data) /\
     (startsWith line "#" = true \/ sample_line (chars (trim line)))) /\
  isValidPrometheusMetrics "" = false /\
  isValidPrometheusMetrics ("# HELP x" ++ nl ++ "foo 1") = true /\
  isValidPrometheusMetrics ("garbage" ++ nl) = false.
Proof.
  split; [| by vm_compute].
  unfold isValidPrometheusMetrics. rewrite existsb_exists.
  split; intros (line & Hin & Hline); exists line.
  - apply list_elem_of_In in Hin. split; [done |].
    apply orb_true_iff in Hline as [? | Hline]; [by left | right].
    by apply test_metric_line.
  - apply list_elem_of_In in Hin. split; [done |].
    apply orb_true_iff. destruct Hline as [? | Hline]; [by left | right].
    by apply test_metric_line.
Qed.

(** C6, counterexample.  The input made of a space, [#] and [x] is accepted,
    because the space is removed before the input is cut into lines; its only
    line does not start with [#] and is not a sample line, trimmed or not. *)
Lemma validator_accepts_indented_comment :
  isValidPrometheusMetrics " #x" = true /\ ~ claimed_valid " #x".
Proof.
  split; [by vm_compute |].
  intros (line & Hin & Hline). vm_compute in Hin.
  apply list_elem_of_singleton in Hin as ->.
  destruct Hline as [H | [H | H]].
  - by vm_compute in H.
  - apply test_metric_line in H. by vm_compute in H.
  - apply (test_metric_line (trim " #x")) in H. by vm_compute in H.
Qed.

(* ===================================================================== *)
(** ** Keys and what a save leaves stored *)
(* ===================================================================== *)

Lemma length_pretty_N_go (x : N) (s : string) :
  String.length s <= String.length (pretty_N_go x s).
Proof.
  revert s. induction (N.lt_wf_0 x) as [x _ IH]; intros s.
  assert (x = 0 \/ 0 < x)%N as [-> | Hx] by lia; [by rewrite pretty_N_go_0 |].
  rewrite pretty_N_go_step by done.
  etrans; [| apply IH; by apply N.div_lt]. simpl. lia.
Qed.

Lemma pretty_Z_nonempty (z : Z) : exists c s, pretty z = String c s.
Proof.
  assert (HN : forall n : N, exists c s, pretty n = String c s).
  { intros n. unfold pretty, pretty_N. destruct (decide (n = 0%N)); [by eauto |].
    rewrite pretty_N_go_step by lia.
    pose proof (length_pretty_N_go (n `div` 10)
      (String (pretty_N_char (n `mod` 10)) "")) as Hlen.
    destruct (pretty_N_go _ _) as [| c s]; [simpl in Hlen; lia | eauto]. }
  destruct z as [| p | p]; unfold pretty, pretty_Z; [by eauto | apply HN | by eauto].
Qed.

(** X1.  The key of a snapshot determines its timestamp: uploads at
    different times are stored under different keys. *)
Theorem snapshot_key_injective (a b : Z) :
  snapshot_key a = snapshot_key b -> a = b.
Proof.
  unfold snapshot_key. cbn [String.append]. intros H.
  injection H as H. by apply pretty_Z_inj.
Qed.

Lemma snapshot_key_injective_witness :
  snapshot_key 1700000000000 = snapshot_key 1700000000000 /\
  1700000000000%Z = 1700000000000%Z.
Proof.
  split; [reflexivity |].
  exact (snapshot_key_injective 1700000000000 1700000000000 eq_refl).
Defined.

(** X2.  After a save the snapshot is stored under its key with the text and
    the timestamp given.  Of the keys stored before, the second in descending
    order is gone (unless it is the key just written) and every other one
    keeps its value. *)
Theorem save_keeps_all_but_second (timestamp : Z) (metricsData : string) (w : world) :
  let w' := after (save timestamp metricsData w) in
  kv w' !! snapshot_key timestamp =
    Some {| env_data := metricsData; env_timestamp := timestamp |} /\
  (forall k : string,
     k <> snapshot_key timestamp ->
     sorted_keys (stored_keys w) !! 1%nat <> Some k ->
     kv w' !! k = kv w !! k) /\
  (forall k : string,
     k <> snapshot_key timestamp ->
     sorted_keys (stored_keys w) !! 1%nat = Some k ->
     kv w' !! k = None).
Proof.
  cbn zeta. rewrite save_run. unfold after. cbn [snd].
  generalize (snapshot_key timestamp)
             {| env_data := metricsData; env_timestamp := timestamp |}.
  intros key value.
  destruct (sorted_keys (stored_keys w)) as [| k0 [| k1 ks]]; cbn [kv].
  - split; [apply lookup_insert_eq |]. split; [| done].
    intros k Hk _. by rewrite lookup_insert_ne.
  - split; [apply lookup_insert_eq |]. split; [| done].
    intros k Hk _. by rewrite lookup_insert_ne.
  - split; [apply lookup_insert_eq |]. split.
    + intros k Hk Hsecond. rewrite lookup_insert_ne by done.
      apply lookup_delete_ne. intros ->. by apply Hsecond.
    + intros k Hk [= ->]. rewrite lookup_insert_ne by done. apply lookup_delete_eq.
Qed.

(** X3.  A save under a key that is not stored yet adds an entry to a
    namespace of fewer than two and leaves the number of entries of a larger
    one as it is: the policy deletes one entry for the one it writes, so a
    namespace that holds more than two never comes back to two. *)
Theorem save_fresh_key_size (timestamp : Z) (metricsData : string) (w : world) :
  kv w !! snapshot_key timestamp = None ->
  size (kv (after (save timestamp metricsData w))) =
    if decide (size (kv w) < 2) then S (size (kv w)) else size (kv w).
Proof.
  intros Hfresh. rewrite save_run. unfold after. cbn [snd].
  pose proof (length_sorted_keys w) as Hlen.
  pose proof (sorted_key_stored w) as Hin.
  revert Hfresh.
  generalize (snapshot_key timestamp)
             {| env_data := metricsData; env_timestamp := timestamp |}.
  intros key value Hfresh.
  destruct (sorted_keys (stored_keys w)) as [| k0 [| k1 ks]];
    cbn [kv length] in *.
  - rewrite map_size_insert_None by done. case_decide; lia.
  - rewrite map_size_insert_None by done. case_decide; lia.
  - assert (Hk1 : is_Some (kv w !! k1)).
    { apply Hin. apply list_elem_of_further, list_elem_of_here. }
    rewrite map_size_insert_None.
    + rewrite map_size_delete_Some by done. case_decide; lia.
    + destruct (decide (k1 = key)) as [-> | Hne];
        [apply lookup_delete_eq | by rewrite lookup_delete_ne].
Qed.

Lemma save_fresh_key_size_witness :
  kv (after (save_all [(1%Z, "a"); (2%Z, "b"); (3%Z, "c")] fresh)) !! snapshot_key 4 = None /\
  size (kv (after (save 4 "d" (after (save_all [(1%Z, "a"); (2%Z, "b"); (3%Z, "c")] fresh))))) =
    if decide (size (kv (after (save_all [(1%Z, "a"); (2%Z, "b"); (3%Z, "c")] fresh))) < 2)
    then S (size (kv (after (save_all [(1%Z, "a"); (2%Z, "b"); (3%Z, "c")] fresh))))
    else size (kv (after (save_all [(1%Z, "a"); (2%Z, "b"); (3%Z, "c")] fresh))).
Proof.
  assert (Hfresh :
    kv (after (save_all [(1%Z, "a"); (2%Z, "b"); (3%Z, "c")] fresh)) !! snapshot_key 4 = None)
    by (vm_compute; reflexivity).
  split; [exact Hfresh |].
  exact (save_fresh_key_size 4 "d" _ Hfresh).
Defined.

(* ===================================================================== *)
(** ** The upload form *)
(* ===================================================================== *)

Lemma insert_by_timestamp_perm (x : string * Z) (l : list (string * Z)) :
  insert_by_timestamp x l ≡ₚ x :: l.
Proof.
  induction l as [| y l IH]; simpl; [done |].
  destruct (x.2 <? y.2)%Z; [| done].
  rewrite IH. apply perm_swap.
Qed.

Lemma sort_by_timestamp_perm (l : list (string * Z)) : sort_by_timestamp l ≡ₚ l.
Proof.
  induction l as [| x l IH]; simpl; [done |].
  by rewrite insert_by_timestamp_perm, IH.
Qed.

Lemma insert_by_timestamp_sorted (x : string * Z) (l : list (string * Z)) :
  StronglySorted newer_first l -> StronglySorted newer_first (insert_by_timestamp x l).
Proof.
  induction l as [| y l IH]; simpl; intros Hl.
  - repeat constructor.
  - apply StronglySorted_cons in Hl as [Hy Hl].
    destruct (x.2 <? y.2)%Z eqn:Hxy.
    + apply StronglySorted_cons. split; [| by apply IH].
      rewrite insert_by_timestamp_perm. constructor; [| done].
      unfold newer_first. lia.
    + apply StronglySorted_cons. split; [| by apply StronglySorted_cons].
      constructor; [unfold newer_first; lia |].
      eapply Forall_impl; [exact Hy |]. unfold newer_first. intros z ?. lia.
Qed.

Lemma sort_by_timestamp_sorted (l : list (string * Z)) :
  StronglySorted newer_first (sort_by_timestamp l).
Proof.
  induction l as [| x l IH]; simpl; [constructor |].
  by apply insert_by_timestamp_sorted.
Qed.

Lemma listing_stored (w : world) :
  Forall (fun k => is_Some (kv w !! k)) (merge_sort string_le (stored_keys w)).
Proof.
  apply Forall_forall. intros k Hk. rewrite merge_sort_Permutation in Hk.
  unfold stored_keys in Hk. by rewrite elem_of_elements, elem_of_dom in Hk.
Qed.

Lemma get_all_stored (names : list string) (w : world) :
  Forall (fun k => is_Some (kv w !! k)) names ->
  get_all names w =
    (Returns (omap (fun k => (fun e => (k, env_timestamp e)) <$> kv w !! k) names),
     {| kv := kv w; object_prototype := object_prototype w;
        log := log w ++ (OpGet <$> names) |}).
Proof.
  revert w. induction names as [| name names IH]; intros w Hall.
  - destruct w. cbn. by rewrite app_nil_r.
  - apply Forall_cons in Hall as [[e He] Hall].
    cbn [get_all]. unfold bind at 1, kv_get. rewrite He.
    unfold bind. rewrite (IH (issue (OpGet name) w (kv w))) by exact Hall.
    cbn. rewrite He. cbn. by rewrite <- app_assoc.
Qed.

Lemma generateUploadForm_run (template : list (string * Z) -> string) (w : world) :
  generateUploadForm template w =
    (Returns (template (take 2 (sort_by_timestamp (listed_uploads w)))),
     {| kv := kv w; object_prototype := object_prototype w;
        log := log w ++ OpList :: (OpGet <$> merge_sort string_le (stored_keys w)) |}).
Proof.
  unfold generateUploadForm, bind, kv_list.
  rewrite (get_all_stored _ (issue OpList w (kv w))) by apply listing_stored.
  cbn. unfold ret, listed_uploads, stored_keys. by rewrite <- app_assoc.
Qed.

Lemma listed_uploads_stored (w : world) (k : string) (t : Z) :
  (k, t) ∈ listed_uploads w <-> exists e, kv w !! k = Some e /\ env_timestamp e = t.
Proof.
  unfold listed_uploads. rewrite list_elem_of_omap. split.
  - intros (k' & _ & Hk'). destruct (kv w !! k') as [e |] eqn:He; [| done].
    injection Hk' as -> <-. eauto.
  - intros (e & He & <-). exists k. rewrite He. split; [| done].
    rewrite merge_sort_Permutation. unfold stored_keys.
    rewrite elem_of_elements, elem_of_dom. eauto.
Qed.

Lemma length_listed_uploads (w : world) : length (listed_uploads w) = size (kv w).
Proof.
  unfold listed_uploads.
  assert (Hlen : forall names, Forall (fun k => is_Some (kv w !! k)) names ->
    length (omap (fun k => (fun e => (k, env_timestamp e)) <$> kv w !! k) names)
    = length names).
  { induction 1 as [| k names [e He] _ IH]; [done |]. cbn. rewrite He. cbn. by rewrite IH. }
  rewrite Hlen by apply listing_stored.
  rewrite (Permutation_length (merge_sort_Permutation _ _)). unfold stored_keys.
  rewrite <- (size_dom (D := gset string)). reflexivity.
Qed.

(** X4.  The upload form can always be built and only reads the namespace:
    one listing, then one read per key.  It shows two uploads, or all of them
    when fewer are stored, newest first; each one shown is a stored key with
    the timestamp of its envelope, and no stored snapshot that is left out is
    newer than one that is shown. *)
Theorem upload_form_shows_newest (template : list (string * Z) -> string) (w : world) :
  exists shown : list (string * Z),
    generateUploadForm template w =
      (Returns (template shown),
       {| kv := kv w; object_prototype := object_prototype w;
          log := log w ++ OpList :: (OpGet <$> merge_sort string_le (stored_keys w)) |}) /\
    length shown = min 2 (size (kv w)) /\
    StronglySorted newer_first shown /\
    (forall k t, (k, t) ∈ shown -> exists e, kv w !! k = Some e /\ env_timestamp e = t) /\
    (forall k e, kv w !! k = Some e ->
       (k, env_timestamp e) ∈ shown \/
       forall x, x ∈ shown -> (env_timestamp e <= x.2)%Z).
Proof.
  exists (take 2 (sort_by_timestamp (listed_uploads w))).
  pose proof (sort_by_timestamp_sorted (listed_uploads w)) as Hsorted.
  pose proof (sort_by_timestamp_perm (listed_uploads w)) as Hperm.
  rewrite <- (take_drop 2 (sort_by_timestamp (listed_uploads w))) in Hsorted, Hperm.
  split; [apply generateUploadForm_run |].
  split.
  { rewrite length_take, (Permutation_length (sort_by_timestamp_perm _)).
    by rewrite length_listed_uploads. }
  split; [by apply StronglySorted_app_1_l in Hsorted |].
  split.
  - intros k t Hin. apply listed_uploads_stored. rewrite <- Hperm.
    apply elem_of_app. by left.
  - intros k e He.
    assert (Hin : (k, env_timestamp e) ∈ listed_uploads w)
      by (apply listed_uploads_stored; eauto).
    rewrite <- Hperm in Hin. apply elem_of_app in Hin as [Hin | Hin]; [by left | right].
    intros x Hx.
    apply (StronglySorted_app_1_elem_of _ _ _ _ _ Hsorted Hx Hin).
Qed.

(* ===================================================================== *)
(** ** Requests *)
(* ===================================================================== *)

Section Requests.

Variable generateDashboard : realm -> ParsedMetrics -> Z + string -> string.
Variable uploadFormTemplate : list (string * Z) -> string.

(** X5.  A request that is not a POST never writes: whatever it answers, and
    also when it fails, the namespace stores what it stored before, and the
    operations issued are listings and reads. *)
Theorem retrieval_only_reads (request : Request) (now : Z) (w : world) :
  method request <> "POST" ->
  kv (after (handleRequest generateDashboard uploadFormTemplate request now w)) = kv w /\
  exists ops,
    log (after (handleRequest generateDashboard uploadFormTemplate request now w)) =
      log w ++ ops /\
    forallb is_read ops = true.
Proof.
  intros Hmethod. unfold handleRequest.
  destruct (String.eqb_spec (method request) "POST") as [| _]; [done |].
  destruct (first_of "timestamp" (searchParams request)) as [[| c t] |].
  - unfold bind. rewrite generateUploadForm_run. unfold after. cbn.
    split; [done |]. eexists. split; [reflexivity |].
    cbn. clear. induction (merge_sort string_le (stored_keys w)); [done | done].
  - unfold bind, kv_get, after.
    destruct (kv w !! (String.append "metrics_" (String c t))) as [e |].
    + unfold parse. cbn [issue kv object_prototype log].
      destruct (parsePrometheusMetrics (env_data e) (object_prototype w)) as [[m | err] r];
        cbn; (split; [done |]); by exists [OpGet (String.append "metrics_" (String c t))].
    + cbn. split; [done |]. by exists [OpGet (String.append "metrics_" (String c t))].
  - unfold bind. rewrite generateUploadForm_run. unfold after. cbn.
    split; [done |]. eexists. split; [reflexivity |].
    cbn. clear. induction (merge_sort string_le (stored_keys w)); [done | done].
Qed.

(** X6.  A retrieval whose timestamp names no stored snapshot is answered
    with status 404 and the text [Metrics not found], after one read of the
    key made of the prefix and the text of the query. *)
Theorem unknown_timestamp_not_found (request : Request) (now : Z) (w : world)
    (c : ascii) (t : string) :
  method request <> "POST" ->
  first_of "timestamp" (searchParams request) = Some (String c t) ->
  kv w !! (String.append "metrics_" (String c t)) = None ->
  handleRequest generateDashboard uploadFormTemplate request now w =
    (Returns {| status := 404; body := "Metrics not found";
                content_type := Some "text/plain;charset=UTF-8" |},
     {| kv := kv w; object_prototype := object_prototype w;
        log := log w ++ [OpGet (String.append "metrics_" (String c t))] |}).
Proof.
  intros Hmethod Hquery Hmissing. unfold handleRequest.
  destruct (String.eqb_spec (method request) "POST") as [| _]; [done |].
  rewrite Hquery. unfold bind, kv_get. by rewrite Hmissing.
Qed.


Lemma save_returns (timestamp : Z) (metricsData : string) (w : world) :
  save timestamp metricsData w = (Returns tt, after (save timestamp metricsData w)).
Proof. by rewrite save_run. Qed.

Lemma save_keeps_prototype (timestamp : Z) (metricsData : string) (w : world) :
  object_prototype (after (save timestamp metricsData w)) = object_prototype w.
Proof.
  rewrite save_run. unfold after. cbn [snd].
  by destruct (sorted_keys (stored_keys w)) as [| k0 [| k1 ks]].
Qed.

(** X8.  Round trip of an upload.  When the text is valid and its parse
    returns a model and leaves the shared prototype as it found it, the
    upload is answered with the dashboard of that model and stores the text
    under the key of its timestamp; a retrieval with the decimal digits of
    that timestamp then reads that key, parses the stored text to the same
    model and answers with its dashboard, without changing what is stored. *)
Theorem upload_then_retrieve (request : Request) (now : Z) (w : world)
    (text : string) (m : ParsedMetrics) :
  method request = "POST" ->
  first_of "metricsFile" (formData request) = Some (FormFile text) ->
  isValidPrometheusMetrics text = true ->
  parsePrometheusMetrics text (object_prototype w) = (Returns m, object_prototype w) ->
  let w1 := after (handleRequest generateDashboard uploadFormTemplate request now w) in
  handleRequest generateDashboard uploadFormTemplate request now w =
    (Returns (html (generateDashboard (object_prototype w) m (inl now))), w1) /\
  kv w1 !! snapshot_key now = Some {| env_data := text; env_timestamp := now |} /\
  forall now' : Z,
    handleRequest generateDashboard uploadFormTemplate
      (retrieval [("timestamp", pretty now)]) now' w1 =
    (Returns (html (generateDashboard (object_prototype w) m (inr (pretty now)))),
     {| kv := kv w1; object_prototype := object_prototype w;
        log := log w1 ++ [OpGet (snapshot_key now)] |}).
Proof.
  intros Hmethod Hfile Hvalid Hparse.
  destruct w as [store r ops]. cbn [object_prototype] in Hparse.
  assert (Hpost :
    handleRequest generateDashboard uploadFormTemplate request now
      {| kv := store; object_prototype := r; log := ops |} =
    (Returns (html (generateDashboard r m (inl now))),
     after (save now text {| kv := store; object_prototype := r; log := ops |}))).
  { unfold handleRequest. rewrite Hmethod, String.eqb_refl, Hfile, Hvalid. cbn [negb].
    unfold bind at 1. unfold parse. cbn [object_prototype kv log]. rewrite Hparse.
    unfold bind at 1. rewrite save_returns.
    unfold bind, render, ret. by rewrite save_keeps_prototype. }
  cbn zeta. rewrite Hpost. cbn [object_prototype].
  set (w1 := after (save now text {| kv := store; object_prototype := r; log := ops |})).
  unfold after. cbn [snd].
  assert (Hstored : kv w1 !! snapshot_key now =
            Some {| env_data := text; env_timestamp := now |})
    by apply save_keeps_all_but_second.
  split; [done |]. split; [done |].
  intros now'. unfold handleRequest, retrieval. cbn [method searchParams].
  change (String.eqb "GET" "POST") with false. cbn iota.
  change (first_of "timestamp" [("timestamp", pretty now)]) with (Some (pretty now)).
  destruct (pretty_Z_nonempty now) as (c & t & Hdigits).
  unfold snapshot_key in *. rewrite Hdigits in *.
  unfold bind at 1. unfold kv_get. rewrite Hstored. cbn iota.
  unfold bind at 1. unfold parse. cbn [issue object_prototype kv log env_data].
  assert (Hr : object_prototype w1 = r) by apply save_keeps_prototype.
  rewrite Hr, Hparse. reflexivity.
Qed.

End Requests.


Lemma retrieval_only_reads_witness :
  method (retrieval []) <> "POST" /\
  kv (after (handleRequest no_dashboard no_form (retrieval []) 5
               (after (save 1 "a" fresh)))) = kv (after (save 1 "a" fresh)).
Proof.
  assert (Hmethod : method (retrieval []) <> "POST") by discriminate.
  split; [exact Hmethod |].
  exact (proj1 (retrieval_only_reads no_dashboard no_form (retrieval []) 5
                  (after (save 1 "a" fresh)) Hmethod)).
Defined.

Lemma unknown_timestamp_not_found_witness :
  method (retrieval [("timestamp", "123")]) <> "POST" /\
  first_of "timestamp" (searchParams (retrieval [("timestamp", "123")])) = Some "123" /\
  kv fresh !! String.append "metrics_" "123" = None /\
  handleRequest no_dashboard no_form (retrieval [("timestamp", "123")]) 5 fresh =
    (Returns {| status := 404; body := "Metrics not found";
                content_type := Some "text/plain;charset=UTF-8" |},
     {| kv := kv fresh; object_prototype := object_prototype fresh;
        log := log fresh ++ [OpGet (String.append "metrics_" "123")] |}).
Proof.
  assert (Hmethod : method (retrieval [("timestamp", "123")]) <> "POST") by discriminate.
  split; [exact Hmethod |]. split; [reflexivity |]. split; [reflexivity |].
  exact (unknown_timestamp_not_found no_dashboard no_form
           (retrieval [("timestamp", "123")]) 5 fresh "1" "23" Hmethod eq_refl eq_refl).
Defined.


Lemma upload_then_retrieve_witness :
  isValidPrometheusMetrics "foo 1" = true /\
  parsePrometheusMetrics "foo 1" (object_prototype fresh) =
    (Returns {| gauges := [("foo", {| sample_value := of_Z 1; sample_labels := [] |})];
                counters := []; histograms := [] |}, object_prototype fresh) /\
  kv (after (handleRequest no_dashboard no_form (upload "foo 1") 5 fresh)) !! snapshot_key 5 =
    Some {| env_data := "foo 1"; env_timestamp := 5 |}.
Proof.
  assert (Hparse : parsePrometheusMetrics "foo 1" (object_prototype fresh) =
    (Returns {| gauges := [("foo", {| sample_value := of_Z 1; sample_labels := [] |})];
                counters := []; histograms := [] |}, object_prototype fresh))
    by (vm_compute; reflexivity).
  assert (Hvalid : isValidPrometheusMetrics "foo 1" = true) by (vm_compute; reflexivity).
  split; [exact Hvalid |]. split; [exact Hparse |].
  exact (proj1 (proj2 (upload_then_retrieve no_dashboard no_form (upload "foo 1") 5 fresh
                         "foo 1" _ eq_refl eq_refl Hvalid Hparse))).
Defined.

(* ===================================================================== *)
(** ** Lines without effect, and when the parser returns *)
(* ===================================================================== *)

Lemma parse_line_skipped (line : string) (r : realm) (metrics : ParsedMetrics) :
  is_skipped line = true -> parse_line line r metrics = (Returns metrics, r).
Proof.
  unfold is_skipped, parse_line. intros H.
  destruct (startsWith line "#"); [done |]. cbn [orb] in H.
  repeat case_match; simplify_eq; done.
Qed.

Lemma split_spaces_word (s : string) : is_word s = true -> split_spaces s = [s].
Proof.
  unfold is_word, chars. induction s as [| c s IH]; [done |].
  cbn [list_ascii_of_string forallb]. intros [Hc Hs]%andb_true_iff.
  apply negb_true_iff in Hc. cbn [split_spaces]. rewrite Hc. by rewrite IH.
Qed.

(** X9.  Lines without effect.  Removing from the input every comment line,
    every line that has fewer than two non-empty white-space-separated
    pieces at its start, and every line whose first piece holds nothing but
    opening brackets and opening braces changes neither the model nor the
    error the parser ends with.  Comment lines, the empty line and lines of a single word are
    such lines. *)
Theorem skipped_lines_have_no_effect (lines : list string) (r : realm)
    (metrics : ParsedMetrics) :
  parse_lines (filter (fun line => is_skipped line = false) lines) r metrics =
    parse_lines lines r metrics /\
  is_skipped "" = true /\
  (forall line, startsWith line "#" = true -> is_skipped line = true) /\
  (forall line, is_word line = true -> is_skipped line = true).
Proof.
  split; [| split; [done | split]].
  - revert r metrics. induction lines as [| line lines IH]; intros r metrics; [done |].
    rewrite filter_cons. destruct (is_skipped line) eqn:Hline.
    + rewrite decide_False by done. cbn [parse_lines].
      rewrite parse_line_skipped by done. apply IH.
    + rewrite decide_True by done. cbn [parse_lines].
      destruct (parse_line line r metrics) as [[m' | e] r']; [apply IH | done].
  - intros line Hline. unfold is_skipped. by rewrite Hline.
  - intros line Hline. unfold is_skipped. rewrite (split_spaces_word line Hline).
    cbn. destruct line; apply orb_true_r.
Qed.


Lemma get_own_set_own_eq {A} (k : string) (v : A) (o : props A) :
  get_own k (set_own k v o) = Some v.
Proof.
  induction o as [| [k' v'] o IH]; simpl.
  - by rewrite String.eqb_refl.
  - destruct (String.eqb k k') eqn:Hk; simpl; [by rewrite String.eqb_refl |].
    by rewrite Hk.
Qed.

Lemma get_own_set_own_ne {A} (k k' : string) (v : A) (o : props A) :
  k' <> k -> get_own k' (set_own k v o) = get_own k' o.
Proof.
  intros Hne. induction o as [| [k'' v''] o IH]; simpl.
  - by apply String.eqb_neq in Hne as ->.
  - destruct (String.eqb_spec k k'') as [<- | Hk]; simpl.
    + by apply String.eqb_neq in Hne as ->.
    + by rewrite IH.
Qed.

Lemma keys_set_own_stored {A} (k : string) (v : A) (o : props A) :
  k ∈ keys o -> keys (set_own k v o) = keys o.
Proof.
  induction o as [| [k' v'] o IH]; simpl; intros Hin; [by apply elem_of_nil in Hin |].
  destruct (String.eqb_spec k k') as [<- | Hk]; simpl; [done |].
  apply elem_of_cons in Hin as [? | Hin]; [done |]. by rewrite IH.
Qed.

Lemma keys_set_own_new {A} (k : string) (v : A) (o : props A) :
  k ∉ keys o -> keys (set_own k v o) = keys o ++ [k].
Proof.
  induction o as [| [k' v'] o IH]; simpl; intros Hin; [done |].
  apply not_elem_of_cons in Hin as [Hne Hin].
  destruct (String.eqb_spec k k') as [<- | Hk]; simpl; [done |]. by rewrite IH.
Qed.

Lemma get_after_ensure_own (r : realm) (h : props HistogramAccumulator) (baseName : string) :
  baseName ∉ inherited_names ->
  exists entry,
    get r (ensure_histogram r h baseName) baseName = Own entry /\
    entry = default new_histogram (get_own baseName h) /\
    ensure_histogram r h baseName =
      match get_own baseName h with
      | Some _ => h
      | None => set_own baseName new_histogram h
      end.
Proof.
  intros Hname. unfold inherited_names in Hname.
  apply not_elem_of_cons in Hname as [Hproto Hname].
  apply not_elem_of_app in Hname as [Hfun Hname].
  apply not_elem_of_cons in Hname as [Hsum Hname].
  apply not_elem_of_cons in Hname as [Hcount _].
  assert (Hfun' : is_prototype_function baseName = false).
  { unfold is_prototype_function. apply not_true_is_false. intros Hex.
    apply existsb_exists in Hex as (k & Hk & Heq). apply String.eqb_eq in Heq as <-.
    by apply Hfun, list_elem_of_In. }
  apply String.eqb_neq in Hproto, Hsum, Hcount.
  unfold ensure_histogram, get, assign.
  destruct (get_own baseName h) as [entry |] eqn:Hown; cbn [slot_truthy].
  - rewrite Hown. eauto.
  - rewrite Hproto, Hfun', Hsum, Hcount. cbn [slot_truthy].
    rewrite get_own_set_own_eq. eauto.
Qed.

Lemma get_after_ensure_defined (r : realm) (h : props HistogramAccumulator)
    (baseName : string) :
  get r (ensure_histogram r h baseName) baseName <> Undefined.
Proof.
  unfold ensure_histogram.
  destruct (slot_truthy (get r h baseName)) eqn:Htruthy.
  - intros Hget. rewrite Hget in Htruthy. done.
  - unfold assign. destruct (String.eqb baseName "__proto__") eqn:Hproto.
    + unfold get in *. destruct (get_own baseName h); [done |].
      rewrite Hproto in Htruthy. done.
    + unfold get. by rewrite get_own_set_own_eq.
Qed.

Lemma parse_line_throws_hazardous (line : string) (r r' : realm)
    (metrics : ParsedMetrics) (e : error) :
  parse_line line r metrics = (Throws e, r') -> is_hazardous line = true.
Proof.
  unfold parse_line, is_hazardous, bucket_base.
  destruct (startsWith line "#"); [done |].
  destruct (split_spaces line !! 0%nat) as [[| c0 n0] |]; try done.
  destruct (split_spaces line !! 1%nat) as [[| c1 v1] |]; try done.
  destruct (match_name_labels (String c0 n0)) as [[name labelsStr] |]; [| done].
  destruct (includes name "_bucket").
  - destruct (decide (remove_first "_bucket" name ∈ inherited_names)) as [Hin | Hout].
    + intros _. by apply bool_decide_eq_true.
    + destruct (get_after_ensure_own r (histograms metrics) _ Hout) as (entry & -> & _).
      done.
  - destruct (includes name "_sum" || includes name "_count").
    + pose proof (get_after_ensure_defined r (histograms metrics) (strip_sum_count name)) as Hdef.
      destruct (get r (ensure_histogram r (histograms metrics) (strip_sum_count name))
                  (strip_sum_count name)); try done.
    + by destruct (includes name "total" || includes name "errors").
Qed.

(** X10.  When the parser returns.  If no line of the input is a bucket line
    whose base name is one of the fourteen inherited names ([__proto__], the
    eleven functions of the prototype, [sum], [count]), the parser returns a
    model, whatever the state of the shared prototype; and a line on which it
    throws is such a line. *)
Theorem parse_returns_without_hazard (data : string) (r : realm) :
  Forall (fun line => is_hazardous line = false) (split newline data) ->
  (exists m r', parsePrometheusMetrics data r = (Returns m, r')) /\
  (forall line r0 r1 metrics e,
     parse_line line r0 metrics = (Throws e, r1) -> is_hazardous line = true).
Proof.
  intros Hsafe. split; [| intros; by eapply parse_line_throws_hazardous].
  unfold parsePrometheusMetrics. generalize empty_metrics. revert r.
  induction Hsafe as [| line lines Hline _ IH]; intros r metrics; [by eauto |].
  cbn [parse_lines].
  destruct (parse_line line r metrics) as [[m' | e] r'] eqn:Hstep; [apply IH |].
  apply parse_line_throws_hazardous in Hstep. congruence.
Qed.

Lemma parse_returns_without_hazard_witness :
  Forall (fun line => is_hazardous line = false)
         (split newline (unlines ["# TYPE up gauge"; "up 1"; "lat_bucket 2"; "x_sum 3"])) /\
  exists m r',
    parsePrometheusMetrics (unlines ["# TYPE up gauge"; "up 1"; "lat_bucket 2"; "x_sum 3"])
      pristine = (Returns m, r').
Proof.
  assert (H : Forall (fun line => is_hazardous line = false)
    (split newline (unlines ["# TYPE up gauge"; "up 1"; "lat_bucket 2"; "x_sum 3"])))
    by (vm_compute; repeat constructor).
  split; [exact H |].
  exact (proj1 (parse_returns_without_hazard
    (unlines ["# TYPE up gauge"; "up 1"; "lat_bucket 2"; "x_sum 3"]) pristine H)).
Defined.

(* ===================================================================== *)
(** ** The pieces of a well-formed line *)
(* ===================================================================== *)

#[local] Arguments String.append !s1 s2 : simpl nomatch.

Lemma string_app_assoc (a b c : string) : ((a ++ b) ++ c)%string = (a ++ b ++ c)%string.
Proof. induction a as [| x a IH]; [done |]. cbn [String.append]. by rewrite IH. Qed.

Lemma string_app_nil_r (a : string) : (a ++ "")%string = a.
Proof. induction a as [| x a IH]; [done |]. cbn [String.append]. by rewrite IH. Qed.

Lemma chars_app (a b : string) : chars (a ++ b) = chars a ++ chars b.
Proof.
  unfold chars. induction a as [| x a IH]; [done |].
  cbn [String.append list_ascii_of_string app]. by rewrite IH.
Qed.

Lemma split_spaces_word_app (w rest : string) (ps : list string) :
  is_word w = true -> split_spaces rest = EmptyString :: ps ->
  split_spaces (w ++ rest) = w :: ps.
Proof.
  unfold is_word, chars. intros Hw Hrest. induction w as [| c w IH]; [done |].
  cbn [list_ascii_of_string forallb] in Hw. apply andb_true_iff in Hw as [Hc Hw].
  apply negb_true_iff in Hc. cbn [String.append split_spaces].
  rewrite Hc. by rewrite IH.
Qed.

Lemma split_spaces_separator (sep rest : string) :
  is_separator sep = true ->
  match rest with EmptyString => true | String c _ => negb (is_space c) end = true ->
  split_spaces (sep ++ rest) = EmptyString :: split_spaces rest.
Proof.
  intros Hsep Hrest. induction sep as [| c sep IH]; [done |].
  unfold is_separator, chars in Hsep. cbn [list_ascii_of_string forallb] in Hsep.
  apply andb_true_iff in Hsep as [Hc Hsep].
  cbn [String.append split_spaces]. rewrite Hc.
  destruct sep as [| c' sep].
  - cbn [String.append]. destruct rest as [| v rest]; [done |].
    apply negb_true_iff in Hrest. by rewrite Hrest.
  - cbn [list_ascii_of_string forallb] in Hsep.
    pose proof Hsep as Hsep'. apply andb_true_iff in Hsep' as [Hc' _].
    cbn [String.append]. rewrite Hc'. apply IH. unfold is_separator, chars.
    exact Hsep.
Qed.

Lemma split_spaces_pieces (first sep value rest : string) :
  is_word first = true -> is_separator sep = true -> is_value value = true ->
  is_remainder rest = true ->
  exists ps, split_spaces (first ++ sep ++ value ++ rest) = first :: value :: ps.
Proof.
  intros Hfirst Hsep Hvalue Hrest.
  destruct value as [| v value]; [done |]. unfold is_value in Hvalue.
  assert (Hv : is_space v = false).
  { unfold is_word, chars in Hvalue. cbn [list_ascii_of_string forallb] in Hvalue.
    apply andb_true_iff in Hvalue as [Hv _]. by apply negb_true_iff in Hv. }
  assert (Htail : exists ps, split_spaces (String v value ++ rest) = String v value :: ps).
  { destruct rest as [| c rest].
    - rewrite string_app_nil_r. exists []. by apply split_spaces_word.
    - destruct (split_spaces_leading rest c Hrest) as [ps Hps].
      exists ps. by apply split_spaces_word_app. }
  destruct Htail as [ps Hps]. exists ps.
  apply split_spaces_word_app; [done |].
  rewrite split_spaces_separator; [by rewrite Hps | done |].
  cbn [String.append]. by rewrite Hv.
Qed.

Lemma take_drop_while_app (f : ascii -> bool) (s t : string) :
  forallb f (chars s) = true ->
  match t with EmptyString => true | String c _ => negb (f c) end = true ->
  take_while f (s ++ t) = s /\ drop_while f (s ++ t) = t.
Proof.
  unfold chars. intros Hs Ht. induction s as [| c s IH].
  - cbn [String.append]. destruct t as [| c t]; [done |].
    apply negb_true_iff in Ht. cbn. by rewrite Ht.
  - cbn [list_ascii_of_string forallb] in Hs. apply andb_true_iff in Hs as [Hc Hs].
    destruct (IH Hs) as [IH1 IH2].
    cbn [String.append take_while drop_while]. rewrite Hc. by rewrite IH1, IH2.
Qed.

Lemma forallb_and {A} (f g : A -> bool) (l : list A) :
  forallb (fun x => f x && g x) l = true -> forallb f l = true /\ forallb g l = true.
Proof.
  induction l as [| x l IH]; [done |]. cbn.
  intros [[Hf Hg]%andb_true_iff Hl]%andb_true_iff.
  destruct (IH Hl) as [IH1 IH2]. by rewrite Hf, Hg, IH1, IH2.
Qed.

Lemma match_name_labels_line (name : string) (labels : option string) :
  is_name name = true -> is_label_block labels = true ->
  match_name_labels (name ++ block_text labels) = Some (name, labels).
Proof.
  intros Hname Hlabels. destruct name as [| a name]; [done |].
  unfold is_name in Hname. apply andb_true_iff in Hname as [_ Hname].
  apply forallb_and in Hname as [_ Hopen].
  assert (Ha : is_open a = false).
  { unfold chars in Hopen. cbn [list_ascii_of_string forallb] in Hopen.
    apply andb_true_iff in Hopen as [Ha _]. by apply negb_true_iff in Ha. }
  assert (Hblock : match block_text labels with
                   | EmptyString => true
                   | String c _ => negb (not_open c)
                   end = true) by (by destruct labels).
  destruct (take_drop_while_app not_open (String a name) (block_text labels) Hopen Hblock)
    as [Htake Hdrop].
  unfold match_name_labels.
  assert (Hhead : drop_while is_open (String a name ++ block_text labels) =
                  (String a name ++ block_text labels)%string).
  { cbn [String.append drop_while]. by rewrite Ha. }
  rewrite Hhead. cbn [String.append]. cbn [String.append] in Htake, Hdrop.
  rewrite Htake, Hdrop.
  destruct labels as [text |]; [| done]. cbn [block_text String.append].
  destruct text as [| c text]; [done |]. unfold is_label_block, is_label_text in Hlabels.
  apply forallb_and in Hlabels as [_ Hclose].
  destruct (take_drop_while_app not_close (String c text) "}" Hclose eq_refl)
    as [Htake' Hdrop'].
  rewrite Htake', Hdrop'. done.
Qed.

Lemma is_word_name_block (name : string) (labels : option string) :
  is_name name = true -> is_label_block labels = true ->
  is_word (name ++ block_text labels) = true.
Proof.
  intros Hname Hlabels. unfold is_word. rewrite chars_app, forallb_app.
  destruct name as [| a name]; [done |]. unfold is_name in Hname.
  apply andb_true_iff in Hname as [_ Hname]. apply forallb_and in Hname as [-> _].
  destruct labels as [text |]; [| done]. unfold block_text.
  change ("{" ++ text ++ "}")%string with (String "{" (text ++ "}")).
  unfold chars. cbn [list_ascii_of_string forallb]. fold (chars (text ++ "}")).
  rewrite chars_app, forallb_app.
  destruct text as [| c text]; [done |]. unfold is_label_block, is_label_text in Hlabels.
  apply forallb_and in Hlabels as [-> _]. done.
Qed.

(** What the loop sees of a well-formed line: it is no comment, its first
    two pieces are the name with its label block and the value, and the
    pattern splits the first piece into the name and the text of the
    labels. *)
Lemma well_formed_pieces (name : string) (labels : option string)
    (sep value rest : string) :
  well_formed name labels sep value rest = true ->
  startsWith (line_of name labels sep value rest) "#" = false /\
  exists a x v y ps,
    (name ++ block_text labels)%string = String a x /\ value = String v y /\
    split_spaces (line_of name labels sep value rest) = String a x :: String v y :: ps /\
    match_name_labels (String a x) = Some (name, labels).
Proof.
  unfold well_formed.
  intros [[[[Hname Hlabels]%andb_true_iff Hsep]%andb_true_iff Hvalue]%andb_true_iff
            Hrest]%andb_true_iff.
  unfold line_of.
  destruct name as [| a name]; [done |]. destruct value as [| v y]; [done |].
  split.
  - unfold is_name in Hname.
    apply andb_true_iff in Hname as [Ha _]. apply negb_true_iff in Ha.
    unfold startsWith. cbn [String.append String.prefix].
    destruct (ascii_dec "#" a) as [<- | ]; [done | done].
  - destruct (split_spaces_pieces (String a name ++ block_text labels) sep (String v y) rest)
      as [ps Hps]; [by apply is_word_name_block | done | done | done |].
    pose proof (match_name_labels_line (String a name) labels Hname Hlabels) as Hmatch.
    exists a, (name ++ block_text labels)%string, v, y, ps.
    split; [done |]. split; [done |]. split; [exact Hps | exact Hmatch].
Qed.


(* ===================================================================== *)
(** ** Where a well-formed line goes *)
(* ===================================================================== *)

Lemma prefix_refl (p : string) : String.prefix p p = true.
Proof.
  induction p as [| c p IH]; [done |]. cbn [String.prefix].
  by destruct (ascii_dec c c).
Qed.

Lemma includes_self (p : string) : includes p p = true.
Proof. destruct p; cbn [includes]; by rewrite prefix_refl. Qed.

Lemma includes_drop (n : nat) (s p : string) :
  includes (drop n s) p = true -> includes s p = true.
Proof.
  revert s. induction n as [| n IH]; intros s; [by destruct s |].
  destruct s as [| c s]; [done |]. cbn [drop]. intros H%IH.
  cbn [includes]. rewrite H. apply orb_true_r.
Qed.

Lemma includes_of_endsWith (s p : string) :
  endsWith s p = true -> includes s p = true.
Proof.
  unfold endsWith. intros [_ Heq%String.eqb_eq]%andb_true_iff.
  apply (includes_drop (String.length s - String.length p)).
  rewrite Heq. apply includes_self.
Qed.

Lemma ensure_histogram_lookup (r : realm) (h : props HistogramAccumulator)
    (baseName : string) (entry' : HistogramAccumulator) :
  baseName ∉ inherited_names ->
  get_own baseName (set_own baseName entry' (ensure_histogram r h baseName)) = Some entry' /\
  forall k, k <> baseName ->
    get_own k (set_own baseName entry' (ensure_histogram r h baseName)) = get_own k h.
Proof.
  intros Hname. split; [apply get_own_set_own_eq |].
  intros k Hk. rewrite get_own_set_own_ne by done.
  destruct (get_after_ensure_own r h baseName Hname) as (_ & _ & _ & ->).
  destruct (get_own baseName h); [done | by rewrite get_own_set_own_ne].
Qed.

Lemma assign_lookup {A} (o : props A) (k : string) (v : A) :
  k <> "__proto__" ->
  get_own k (assign o k v) = Some v /\
  forall k', k' <> k -> get_own k' (assign o k v) = get_own k' o.
Proof.
  intros Hk. unfold assign. apply String.eqb_neq in Hk as ->.
  split; [apply get_own_set_own_eq | intros; by apply get_own_set_own_ne].
Qed.

(** X11.  A well-formed line whose name contains none of [_bucket], [_sum],
    [_count] and is not [__proto__] is stored as a sample: in [counters] when
    the name contains [total] or [errors], in [gauges] otherwise.  Looked up
    under the full name, the map answers the value and the labels of this
    line, whatever was stored under the name before; every other name of the
    two maps keeps its sample, and the histograms and the shared prototype
    are untouched. *)
Theorem sample_line_stored (name : string) (labels : option string)
    (sep value rest : string) (r : realm) (m : ParsedMetrics) :
  well_formed name labels sep value rest = true ->
  is_histogram_name name = false ->
  name <> "__proto__" ->
  exists m',
    parse_line (line_of name labels sep value rest) r m = (Returns m', r) /\
    get_own name (samples_of m' name) = Some (sample_of labels value) /\
    (forall k, k <> name ->
       get_own k (gauges m') = get_own k (gauges m) /\
       get_own k (counters m') = get_own k (counters m)) /\
    (if is_counter_name name then gauges m' = gauges m else counters m' = counters m) /\
    histograms m' = histograms m.
Proof.
  intros Hline Hname Hproto.
  destruct (well_formed_pieces _ _ _ _ _ Hline)
    as (Hstart & a & x & v & y & ps & _ & -> & Hsplit & Hmatch).
  unfold is_histogram_name in Hname.
  apply orb_false_iff in Hname as [Hname Hcount].
  apply orb_false_iff in Hname as [Hbucket Hsum].
  unfold parse_line. rewrite Hstart, Hsplit.
  change ((String a x :: String v y :: ps) !! 0%nat) with (Some (String a x)).
  change ((String a x :: String v y :: ps) !! 1%nat) with (Some (String v y)).
  cbn iota. rewrite Hmatch. cbn iota zeta. rewrite Hbucket, Hsum, Hcount. cbn [orb].
  unfold samples_of, is_counter_name.
  destruct (assign_lookup (counters m) name (sample_of labels (String v y)) Hproto)
    as [Hc1 Hc2].
  destruct (assign_lookup (gauges m) name (sample_of labels (String v y)) Hproto)
    as [Hg1 Hg2].
  destruct (includes name "total" || includes name "errors");
    eexists; (split; [reflexivity |]); cbn [gauges counters histograms];
    (split; [done |]); (split; [| done]); intros k Hk; split; auto.
Qed.

Lemma sample_line_stored_witness :
  well_formed "up" (Some "job=node") " " "1" " 1700000000000" = true /\
  exists m',
    parse_line (line_of "up" (Some "job=node") " " "1" " 1700000000000")
      pristine empty_metrics = (Returns m', pristine) /\
    get_own "up" (samples_of m' "up") = Some (sample_of (Some "job=node") "1").
Proof.
  split; [reflexivity |].
  destruct (sample_line_stored "up" (Some "job=node") " " "1" " 1700000000000"
              pristine empty_metrics eq_refl eq_refl) as (m' & Hrun & Hget & _);
    [discriminate | eauto].
Defined.

(** X12.  A well-formed line whose name contains [_bucket], with a base name
    (the name without its first [_bucket]) that is not an inherited name,
    adds one bucket at the end of the buckets of the entry of the base name,
    made of the label [le] of the line ([undefined] without one) and its
    value.  The entry is created when absent and keeps its buckets, sum and
    count otherwise; the other entries, the gauges, the counters and the
    shared prototype are untouched. *)
Theorem bucket_line_appended (name : string) (labels : option string)
    (sep value rest : string) (r : realm) (m : ParsedMetrics) :
  well_formed name labels sep value rest = true ->
  includes name "_bucket" = true ->
  remove_first "_bucket" name ∉ inherited_names ->
  exists m',
    parse_line (line_of name labels sep value rest) r m = (Returns m', r) /\
    get_own (remove_first "_bucket" name) (histograms m') =
      Some (add_bucket (entry_of m (remove_first "_bucket" name))
                       (bucket_of labels value)) /\
    (forall k, k <> remove_first "_bucket" name ->
       get_own k (histograms m') = get_own k (histograms m)) /\
    gauges m' = gauges m /\ counters m' = counters m.
Proof.
  intros Hline Hbucket Hbase.
  destruct (well_formed_pieces _ _ _ _ _ Hline)
    as (Hstart & a & x & v & y & ps & _ & -> & Hsplit & Hmatch).
  unfold parse_line. rewrite Hstart, Hsplit.
  change ((String a x :: String v y :: ps) !! 0%nat) with (Some (String a x)).
  change ((String a x :: String v y :: ps) !! 1%nat) with (Some (String v y)).
  cbn iota. rewrite Hmatch. cbn iota zeta. rewrite Hbucket.
  destruct (get_after_ensure_own r (histograms m) _ Hbase) as (entry & -> & -> & _).
  eexists. split; [reflexivity |]. cbn [gauges counters histograms with_histograms].
  destruct (ensure_histogram_lookup r (histograms m) (remove_first "_bucket" name)
              (add_bucket (entry_of m (remove_first "_bucket" name))
                          (bucket_of labels (String v y))) Hbase) as [Heq Hne].
  split; [exact Heq |]. split; [exact Hne | done].
Qed.

Lemma bucket_line_appended_witness :
  well_formed "lat_bucket" (Some "le=1") " " "3" "" = true /\
  includes "lat_bucket" "_bucket" = true /\
  exists m',
    parse_line (line_of "lat_bucket" (Some "le=1") " " "3" "") pristine empty_metrics =
      (Returns m', pristine) /\
    get_own "lat" (histograms m') =
      Some (add_bucket new_histogram (bucket_of (Some "le=1") "3")).
Proof.
  split; [reflexivity |]. split; [reflexivity |].
  destruct (bucket_line_appended "lat_bucket" (Some "le=1") " " "3" ""
              pristine empty_metrics eq_refl eq_refl) as (m' & Hrun & Hget & _).
  - vm_compute. intros H. repeat (apply elem_of_cons in H as [H | H]; [discriminate H |]).
    by apply elem_of_nil in H.
  - exists m'. split; [exact Hrun | exact Hget].
Defined.


(** X13.  A well-formed line whose name does not contain [_bucket] and ends
    with [_sum] sets the sum of the entry of the name without that suffix to
    the value of the line; one whose name ends with [_count] and does not
    contain [_sum] sets the count likewise.  In both cases the base name must
    not be an inherited name; the entry is created when absent and keeps its
    buckets and its other field, and the other entries, the gauges, the
    counters and the shared prototype are untouched. *)
Theorem sum_or_count_line_sets_field (name : string) (labels : option string)
    (sep value rest : string) (r : realm) (m : ParsedMetrics) :
  well_formed name labels sep value rest = true ->
  includes name "_bucket" = false ->
  (endsWith name "_sum" = true ->
   without_suffix 4 name ∉ inherited_names ->
   exists m',
     parse_line (line_of name labels sep value rest) r m = (Returns m', r) /\
     get_own (without_suffix 4 name) (histograms m') =
       Some (with_sum (entry_of m (without_suffix 4 name)) (Number value)) /\
     (forall k, k <> without_suffix 4 name ->
        get_own k (histograms m') = get_own k (histograms m)) /\
     gauges m' = gauges m /\ counters m' = counters m) /\
  (endsWith name "_count" = true ->
   includes name "_sum" = false ->
   without_suffix 6 name ∉ inherited_names ->
   exists m',
     parse_line (line_of name labels sep value rest) r m = (Returns m', r) /\
     get_own (without_suffix 6 name) (histograms m') =
       Some (with_count (entry_of m (without_suffix 6 name)) (Number value)) /\
     (forall k, k <> without_suffix 6 name ->
        get_own k (histograms m') = get_own k (histograms m)) /\
     gauges m' = gauges m /\ counters m' = counters m).
Proof.
  intros Hline Hbucket.
  destruct (well_formed_pieces _ _ _ _ _ Hline)
    as (Hstart & a & x & v & y & ps & _ & -> & Hsplit & Hmatch).
  split.
  - intros Hends Hbase. pose proof (includes_of_endsWith _ _ Hends) as Hsum.
    assert (Hstrip : strip_sum_count name = without_suffix 4 name)
      by (unfold strip_sum_count; by rewrite Hends).
    unfold parse_line. rewrite Hstart, Hsplit.
    change ((String a x :: String v y :: ps) !! 0%nat) with (Some (String a x)).
    change ((String a x :: String v y :: ps) !! 1%nat) with (Some (String v y)).
    cbn iota. rewrite Hmatch. cbn iota zeta. rewrite Hbucket, Hsum, Hstrip. cbn [orb].
    destruct (get_after_ensure_own r (histograms m) _ Hbase) as (entry & -> & -> & _).
    eexists. split; [reflexivity |]. cbn [gauges counters histograms with_histograms].
    destruct (ensure_histogram_lookup r (histograms m) (without_suffix 4 name)
                (with_sum (entry_of m (without_suffix 4 name)) (Number (String v y))) Hbase)
      as [Heq Hne].
    split; [exact Heq |]. split; [exact Hne | done].
  - intros Hends Hsum Hbase. pose proof (includes_of_endsWith _ _ Hends) as Hcount.
    assert (Hnot : endsWith name "_sum" = false).
    { destruct (endsWith name "_sum") eqn:H; [| done].
      apply includes_of_endsWith in H. congruence. }
    assert (Hstrip : strip_sum_count name = without_suffix 6 name)
      by (unfold strip_sum_count; by rewrite Hnot, Hends).
    unfold parse_line. rewrite Hstart, Hsplit.
    change ((String a x :: String v y :: ps) !! 0%nat) with (Some (String a x)).
    change ((String a x :: String v y :: ps) !! 1%nat) with (Some (String v y)).
    cbn iota. rewrite Hmatch. cbn iota zeta. rewrite Hbucket, Hsum, Hcount, Hstrip. cbn [orb].
    destruct (get_after_ensure_own r (histograms m) _ Hbase) as (entry & -> & -> & _).
    eexists. split; [reflexivity |]. cbn [gauges counters histograms with_histograms].
    destruct (ensure_histogram_lookup r (histograms m) (without_suffix 6 name)
                (with_count (entry_of m (without_suffix 6 name)) (Number (String v y))) Hbase)
      as [Heq Hne].
    split; [exact Heq |]. split; [exact Hne | done].
Qed.

Lemma sum_or_count_line_sets_field_witness :
  well_formed "lat_sum" None " " "10" "" = true /\
  includes "lat_sum" "_bucket" = false /\
  endsWith "lat_sum" "_sum" = true /\
  exists m',
    parse_line (line_of "lat_sum" None " " "10" "") pristine empty_metrics =
      (Returns m', pristine) /\
    get_own "lat" (histograms m') = Some (with_sum new_histogram (Number "10")).
Proof.
  split; [reflexivity |]. split; [reflexivity |]. split; [reflexivity |].
  destruct (proj1 (sum_or_count_line_sets_field "lat_sum" None " " "10" ""
                     pristine empty_metrics eq_refl eq_refl) eq_refl)
    as (m' & Hrun & Hget & _).
  - vm_compute. intros H. repeat (apply elem_of_cons in H as [H | H]; [discriminate H |]).
    by apply elem_of_nil in H.
  - exists m'. split; [exact Hrun | exact Hget].
Defined.


(* ===================================================================== *)
(** ** Labels *)
(* ===================================================================== *)

Lemma split_free (c : ascii) (s : string) :
  forallb (fun d => negb (Ascii.eqb c d)) (chars s) = true -> split c s = [s].
Proof.
  unfold chars. induction s as [| d s IH]; [done |].
  cbn [list_ascii_of_string forallb]. intros [Hd Hs]%andb_true_iff.
  apply negb_true_iff in Hd. cbn [split]. rewrite Hd. by rewrite IH.
Qed.

Lemma split_app_sep (c : ascii) (a b : string) :
  forallb (fun d => negb (Ascii.eqb c d)) (chars a) = true ->
  split c (a ++ String c b) = a :: split c b.
Proof.
  unfold chars. induction a as [| d a IH].
  - intros _. cbn [String.append split]. by rewrite Ascii.eqb_refl.
  - cbn [list_ascii_of_string forallb]. intros [Hd Ha]%andb_true_iff.
    apply negb_true_iff in Hd. cbn [String.append split]. rewrite Hd. by rewrite IH.
Qed.

Lemma remove_all_free (c : ascii) (s : string) :
  forallb (fun d => negb (Ascii.eqb c d)) (chars s) = true -> remove_all c s = s.
Proof.
  unfold chars. induction s as [| d s IH]; [done |].
  cbn [list_ascii_of_string forallb]. intros [Hd Hs]%andb_true_iff.
  apply negb_true_iff in Hd. cbn [remove_all]. rewrite Hd. by rewrite IH.
Qed.

Lemma remove_all_app (c : ascii) (a b : string) :
  remove_all c (a ++ b) = (remove_all c a ++ remove_all c b)%string.
Proof.
  induction a as [| d a IH]; [done |]. cbn [String.append remove_all].
  destruct (Ascii.eqb c d); [done |]. cbn [String.append]. by rewrite IH.
Qed.

Lemma label_atom_free (s : string) :
  is_label_atom s = true ->
  forallb (fun d => negb (Ascii.eqb "," d)) (chars s) = true /\
  forallb (fun d => negb (Ascii.eqb "=" d)) (chars s) = true /\
  forallb (fun d => negb (Ascii.eqb dquote d)) (chars s) = true.
Proof.
  unfold is_label_atom. induction (chars s) as [| d l IH]; [done |]. cbn [forallb].
  intros [[[H1 H2]%andb_true_iff H3]%andb_true_iff Hl]%andb_true_iff.
  destruct (IH Hl) as (-> & -> & ->). by rewrite H1, H2, H3.
Qed.

Lemma label_pair_pieces (k v : string) :
  is_label_atom k = true -> is_label_atom v = true ->
  remove_all dquote <$> split "=" (label_pair_text (k, v)) = [k; v] /\
  forallb (fun d => negb (Ascii.eqb "," d)) (chars (label_pair_text (k, v))) = true.
Proof.
  intros Hk Hv.
  destruct (label_atom_free k Hk) as (Hk1 & Hk2 & Hk3).
  destruct (label_atom_free v Hv) as (Hv1 & Hv2 & Hv3).
  unfold label_pair_text, dq. cbn [fst snd]. split.
  - change ("=" ++ String dquote "" ++ v ++ String dquote "")%string
      with (String "=" (String dquote (v ++ String dquote ""))).
    rewrite split_app_sep by done.
    rewrite split_free.
    + cbn [fmap list_fmap]. rewrite (remove_all_free dquote k) by done.
      cbn [remove_all]. rewrite Ascii.eqb_refl, remove_all_app.
      rewrite (remove_all_free dquote v) by done.
      cbn [remove_all]. rewrite Ascii.eqb_refl. by rewrite string_app_nil_r.
    + unfold chars. cbn [list_ascii_of_string forallb]. fold (chars (v ++ String dquote "")).
      rewrite chars_app, forallb_app, Hv2. done.
  - rewrite chars_app, forallb_app, Hk1.
    change ("=" ++ String dquote "" ++ v ++ String dquote "")%string
      with (String "=" (String dquote (v ++ String dquote ""))).
    unfold chars. cbn [list_ascii_of_string forallb]. fold (chars (v ++ String dquote "")).
    rewrite chars_app, forallb_app, Hv1. done.
Qed.

Lemma split_label_text (pairs : list (string * string)) :
  pairs <> [] ->
  Forall (fun p => is_label_atom p.1 = true /\ is_label_atom p.2 = true) pairs ->
  split "," (label_text pairs) = label_pair_text <$> pairs.
Proof.
  unfold label_text. induction pairs as [| [k v] pairs IH]; [done |].
  intros _ [[Hk Hv] Hall]%Forall_cons. cbn [fst snd] in Hk, Hv.
  destruct (label_pair_pieces k v Hk Hv) as [_ Hfree].
  destruct pairs as [| p pairs].
  - cbn [fmap list_fmap String.concat]. by apply split_free.
  - change (String.concat "," (label_pair_text <$> (k, v) :: p :: pairs))
      with (label_pair_text (k, v) ++
            String "," (String.concat "," (label_pair_text <$> p :: pairs)))%string.
    rewrite split_app_sep by done. rewrite IH by done. done.
Qed.

Lemma get_own_app {A} (k : string) (a b : props A) :
  get_own k (a ++ b) =
    match get_own k a with
    | Some v => Some v
    | None => get_own k b
    end.
Proof.
  induction a as [| [k' v'] a IH]; [done |].
  cbn [app get_own]. by destruct (String.eqb k k').
Qed.

(** X14.  Round trip of labels, by lookup.  For pairs of keys and values that
    contain no comma, equals sign or double quote, the object parsed from the
    text [key="value",key="value",...] answers, under every name, the value
    of the last pair with that name as key, the quotes removed, and has no
    property of a name that is the key of no pair. *)
Theorem parse_labels_of_label_text (pairs : list (string * string)) (k : string) :
  pairs <> [] ->
  Forall (fun p => is_label_atom p.1 = true /\ is_label_atom p.2 = true) pairs ->
  get_own k (parse_labels (label_text pairs)) =
    get_own k (reverse ((fun p => (p.1, Some p.2)) <$> pairs)).
Proof.
  intros Hne Hall. unfold parse_labels. rewrite split_label_text by done.
  clear Hne.
  assert (Hgen : forall acc : props (option string),
    get_own k
      (fold_left
         (fun o entry => set_own (default EmptyString (entry !! 0%nat)) (entry !! 1%nat) o)
         ((fun l => remove_all dquote <$> split "=" l) <$> (label_pair_text <$> pairs))
         acc) =
    get_own k (reverse ((fun p => (p.1, Some p.2)) <$> pairs) ++ acc)).
  { induction pairs as [| [k1 v1] pairs IH]; intros acc; [done |].
    apply Forall_cons in Hall as [[Hk Hv] Hall]. cbn [fst snd] in Hk, Hv.
    destruct (label_pair_pieces k1 v1 Hk Hv) as [Hpieces _].
    cbn [fmap list_fmap fold_left]. cbn [fmap list_fmap] in Hpieces.
    rewrite Hpieces.
    change ([k1; v1] !! 0%nat) with (Some k1). change ([k1; v1] !! 1%nat) with (Some v1).
    cbn [default]. rewrite (IH Hall).
    rewrite reverse_cons, <- app_assoc, !get_own_app.
    destruct (get_own k (reverse _)); [done |].
    cbn [app get_own fst snd].
    destruct (String.eqb_spec k k1) as [-> | Hne].
    - apply get_own_set_own_eq.
    - by apply get_own_set_own_ne. }
  by rewrite Hgen, app_nil_r.
Qed.

Lemma parse_labels_of_label_text_witness :
  [("le", "0.5"); ("job", "node"); ("le", "1")] <> [] /\
  get_own "le" (parse_labels (label_text [("le", "0.5"); ("job", "node"); ("le", "1")])) =
    get_own "le" (reverse [("le", Some "0.5"); ("job", Some "node"); ("le", Some "1")]) /\
  get_own "le" (reverse [("le", Some "0.5"); ("job", Some "node"); ("le", Some "1")]) =
    Some (Some "1").
Proof.
  split; [discriminate |]. split; [| reflexivity].
  apply (parse_labels_of_label_text [("le", "0.5"); ("job", "node"); ("le", "1")] "le").
  - discriminate.
  - repeat constructor.
Defined.


(* ===================================================================== *)
(** ** The order of keys and the order of timestamps *)
(* ===================================================================== *)

Lemma pretty_N_go_app (x : N) (s : string) :
  pretty_N_go x s = (pretty_N_go x "" ++ s)%string.
Proof.
  revert s. induction (N.lt_wf_0 x) as [x _ IH]; intros s.
  assert (x = 0 \/ 0 < x)%N as [-> | Hx] by lia; [by rewrite !pretty_N_go_0 |].
  rewrite !(pretty_N_go_step x) by done.
  assert (Hlt : (x `div` 10 < x)%N) by (by apply N.div_lt).
  rewrite (IH _ Hlt (String (pretty_N_char (x `mod` 10)) s)).
  rewrite (IH _ Hlt (String (pretty_N_char (x `mod` 10)) "")).
  by rewrite string_app_assoc.
Qed.

Lemma pretty_N_go_snoc (x : N) :
  (0 < x)%N ->
  pretty_N_go x "" =
    (pretty_N_go (x `div` 10) "" ++ String (pretty_N_char (x `mod` 10)) "")%string.
Proof. intros Hx. rewrite pretty_N_go_step by done. apply pretty_N_go_app. Qed.

Lemma length_string_app (a b : string) :
  String.length (a ++ b) = String.length a + String.length b.
Proof. induction a as [| c a IH]; [done |]. cbn [String.append String.length]. by rewrite IH. Qed.

Lemma pretty_N_go_empty (x : N) : pretty_N_go x "" = EmptyString -> x = 0%N.
Proof.
  intros H. assert (x = 0 \/ 0 < x)%N as [-> | Hx] by lia; [done |].
  rewrite pretty_N_go_snoc in H by done.
  apply (f_equal String.length) in H. rewrite length_string_app in H. simpl in H. lia.
Qed.

Lemma compare_snoc (a b : string) (c d : ascii) :
  String.length a = String.length b ->
  String.compare (a ++ String c "") (b ++ String d "") =
    match String.compare a b with
    | Eq => Ascii.compare c d
    | o => o
    end.
Proof.
  revert b. induction a as [| x a IH]; intros [| y b] Hlen; try done.
  - cbn [String.append String.compare]. by destruct (Ascii.compare c d).
  - cbn [String.length] in Hlen. cbn [String.append String.compare].
    destruct (Ascii.compare x y); [apply IH; lia | done | done].
Qed.

Lemma compare_digit_chars (x y : N) :
  (x < 10)%N -> (y < 10)%N ->
  Ascii.compare (pretty_N_char x) (pretty_N_char y) = (x ?= y)%N.
Proof.
  intros Hx Hy.
  assert (Hcode : forall z, (z < 10)%N -> N_of_ascii (pretty_N_char z) = (48 + z)%N).
  { intros z Hz.
    assert (z = 0 \/ z = 1 \/ z = 2 \/ z = 3 \/ z = 4 \/ z = 5 \/ z = 6 \/ z = 7 \/
            z = 8 \/ z = 9)%N as Hcases by lia.
    repeat destruct Hcases as [-> | Hcases]; try subst z; reflexivity. }
  unfold Ascii.compare. rewrite !Hcode by done.
  destruct (N.compare_spec x y), (N.compare_spec (48 + x) (48 + y)); try done; lia.
Qed.

Lemma compare_digits (x y : N) :
  String.length (pretty_N_go x "") = String.length (pretty_N_go y "") ->
  String.compare (pretty_N_go x "") (pretty_N_go y "") = (x ?= y)%N.
Proof.
  revert y. induction (N.lt_wf_0 x) as [x _ IH]; intros y Hlen.
  assert (x = 0 \/ 0 < x)%N as [-> | Hx] by lia.
  { rewrite pretty_N_go_0 in *.
    assert (y = 0%N) as ->; [| done].
    apply pretty_N_go_empty.
    destruct (pretty_N_go y ""); [done | discriminate Hlen]. }
  assert (y = 0 \/ 0 < y)%N as [-> | Hy] by lia.
  { rewrite (pretty_N_go_0 "") in Hlen. assert (x = 0%N); [| lia].
    apply pretty_N_go_empty.
    destruct (pretty_N_go x ""); [done | discriminate Hlen]. }
  rewrite (pretty_N_go_snoc x), (pretty_N_go_snoc y) in * by done.
  rewrite !length_string_app in Hlen. cbn [String.length] in Hlen.
  rewrite compare_snoc by lia.
  rewrite IH; [| by apply N.div_lt | lia].
  rewrite compare_digit_chars by (by apply N.mod_lt).
  pose proof (N.div_mod x 10 ltac:(lia)) as Hdx.
  pose proof (N.div_mod y 10 ltac:(lia)) as Hdy.
  pose proof (N.mod_lt x 10 ltac:(lia)) as Hmx.
  pose proof (N.mod_lt y 10 ltac:(lia)) as Hmy.
  clear IH Hlen Hx Hy.
  remember (x `div` 10)%N as qx eqn:Hqx. remember (x `mod` 10)%N as rx eqn:Hrx.
  remember (y `div` 10)%N as qy eqn:Hqy. remember (y `mod` 10)%N as ry eqn:Hry.
  clear Hqx Hrx Hqy Hry. subst x y.
  destruct (N.compare_spec qx qy) as [Hq | Hq | Hq].
  - destruct (N.compare_spec rx ry) as [Hr | Hr | Hr]; symmetry.
    + apply N.compare_eq_iff. lia.
    + apply N.compare_lt_iff. lia.
    + apply N.compare_gt_iff. lia.
  - symmetry. apply N.compare_lt_iff. lia.
  - symmetry. apply N.compare_gt_iff. lia.
Qed.

Lemma pretty_Z_digits (z : Z) :
  (0 < z)%Z -> pretty z = pretty_N_go (Z.to_N z) "".
Proof.
  intros Hz. destruct z as [| p | p]; try lia.
  unfold pretty, pretty_Z, pretty, pretty_positive, pretty, pretty_N.
  by rewrite decide_False.
Qed.

Lemma compare_snapshot_keys (a b : Z) :
  (0 < a)%Z -> (0 < b)%Z -> digit_count a = digit_count b ->
  String.compare (snapshot_key a) (snapshot_key b) = (a ?= b)%Z.
Proof.
  unfold digit_count, snapshot_key. intros Ha Hb Hlen.
  rewrite !pretty_Z_digits in * by done.
  change (String.compare ("metrics_" ++ ?x) ("metrics_" ++ ?y))
    with (String.compare x y).
  rewrite compare_digits by done.
  rewrite <- (Z2N.id a), <- (Z2N.id b) at 2 by lia.
  by rewrite N2Z.inj_compare.
Qed.

(** X15.  For positive timestamps with the same number of decimal digits the
    order of the keys is the order of the timestamps; this is the case of any
    two values of the clock between 2001 and 2286.  Across a change of the
    number of digits it is not: the key of 10 is below the key of 9. *)
Theorem key_order_is_time_order (a b : Z) :
  (0 < a)%Z -> (0 < b)%Z -> digit_count a = digit_count b ->
  (string_le (snapshot_key a) (snapshot_key b) <-> (a <= b)%Z).
Proof.
  intros Ha Hb Hlen. unfold string_le, String.leb.
  rewrite compare_snapshot_keys by done.
  destruct (Z.compare_spec a b); split; intros; try done; lia.
Qed.

Lemma key_order_is_time_order_witness :
  (0 < 1700000000000)%Z /\ (0 < 1800000000000)%Z /\
  digit_count 1700000000000 = digit_count 1800000000000 /\
  (string_le (snapshot_key 1700000000000) (snapshot_key 1800000000000) <->
   (1700000000000 <= 1800000000000)%Z).
Proof.
  assert (H1 : (0 < 1700000000000)%Z) by lia.
  assert (H2 : (0 < 1800000000000)%Z) by lia.
  assert (H3 : digit_count 1700000000000 = digit_count 1800000000000) by reflexivity.
  split; [exact H1 |]. split; [exact H2 |]. split; [exact H3 |].
  exact (key_order_is_time_order 1700000000000 1800000000000 H1 H2 H3).
Defined.


Lemma snapshot_key_distinct (a b : Z) : a <> b -> snapshot_key a <> snapshot_key b.
Proof.
  intros Hne Heq. apply Hne. unfold snapshot_key in Heq.
  cbn [String.append] in Heq. injection Heq as Heq. by apply pretty_Z_inj.
Qed.

Lemma string_le_snapshot_keys (a b : Z) :
  (0 < a)%Z -> (0 < b)%Z -> digit_count a = digit_count b ->
  string_le (snapshot_key a) (snapshot_key b) -> (a <= b)%Z.
Proof.
  intros Ha Hb Hlen. unfold string_le, String.leb.
  rewrite compare_snapshot_keys by done.
  destruct (Z.compare_spec a b); intros; try done; lia.
Qed.

(** X16.  The two most recent snapshots are kept.  When the namespace holds
    exactly the snapshots of two positive timestamps with the same number of
    digits, a save at a later time deletes the older of the two: afterwards
    the namespace holds exactly the newer one, unchanged, and the snapshot
    just saved. *)
Theorem save_keeps_two_most_recent (t1 t2 t3 : Z) (metricsData : string) (w : world) :
  (0 < t1 < t2)%Z -> (t2 < t3)%Z -> digit_count t1 = digit_count t2 ->
  dom (kv w) = {[ snapshot_key t1; snapshot_key t2 ]} ->
  let w' := after (save t3 metricsData w) in
  dom (kv w') = {[ snapshot_key t2; snapshot_key t3 ]} /\
  kv w' !! snapshot_key t2 = kv w !! snapshot_key t2 /\
  kv w' !! snapshot_key t3 = Some {| env_data := metricsData; env_timestamp := t3 |}.
Proof.
  intros [Ht1 Ht12] Ht23 Hlen Hdom. cbn zeta.
  assert (H12 : snapshot_key t1 <> snapshot_key t2) by (apply snapshot_key_distinct; lia).
  assert (H23 : snapshot_key t2 <> snapshot_key t3) by (apply snapshot_key_distinct; lia).
  assert (H13 : snapshot_key t1 <> snapshot_key t3) by (apply snapshot_key_distinct; lia).
  assert (Hkeys : sorted_keys (stored_keys w) = [snapshot_key t2; snapshot_key t1]).
  { pose proof (sorted_keys_perm (stored_keys w)) as Hperm.
    pose proof (sorted_keys_sorted (stored_keys w)) as Hsorted.
    assert (Hel : stored_keys w ≡ₚ [snapshot_key t1; snapshot_key t2]).
    { unfold stored_keys. rewrite Hdom.
      rewrite elements_disj_union by set_solver.
      by rewrite !elements_singleton. }
    apply (fun H => perm_trans H Hel) in Hperm. clear Hel.
    destruct (sorted_keys (stored_keys w)) as [| k0 [| k1 [| k2 ks]]];
      try (apply Permutation_length in Hperm; discriminate Hperm).
    assert (Hk0 : k0 ∈ [snapshot_key t1; snapshot_key t2])
      by (rewrite <- Hperm; apply list_elem_of_here).
    assert (Hk1 : k1 ∈ [snapshot_key t1; snapshot_key t2])
      by (rewrite <- Hperm; apply list_elem_of_further, list_elem_of_here).
    assert (Hnodup : NoDup [k0; k1]).
    { rewrite Hperm. apply NoDup_cons. split; [| apply NoDup_singleton].
      by intros ?%list_elem_of_singleton. }
    apply NoDup_cons in Hnodup as [Hne _].
    assert (Hle : string_le k1 k0).
    { apply StronglySorted_inv in Hsorted as [_ Hall].
      by apply Forall_cons in Hall as [? _]. }
    apply elem_of_cons in Hk0 as [-> | ->%list_elem_of_singleton];
      apply elem_of_cons in Hk1 as [-> | ->%list_elem_of_singleton]; try done.
    - exfalso. apply Hne. apply list_elem_of_here.
    - apply string_le_snapshot_keys in Hle; [lia | lia | lia | done].
    - exfalso. apply Hne. apply list_elem_of_here. }
  rewrite save_run. unfold after. cbn [snd]. rewrite Hkeys. cbn [kv].
  split; [| split].
  - rewrite dom_insert_L, dom_delete_L, Hdom. apply set_eq. intros k.
    rewrite !elem_of_union, elem_of_difference, !elem_of_union, !elem_of_singleton.
    split; [intros [-> | [[-> | ->] Hne]]; auto; done | intros [-> | ->]; auto].
  - rewrite lookup_insert_ne by done. by rewrite lookup_delete_ne.
  - apply lookup_insert_eq.
Qed.

Lemma save_keeps_two_most_recent_witness :
  (0 < 1 < 2)%Z /\ (2 < 13)%Z /\ digit_count 1 = digit_count 2 /\
  dom (kv (after (save_all [(1%Z, "a"); (2%Z, "b")] fresh))) =
    {[ snapshot_key 1; snapshot_key 2 ]} /\
  dom (kv (after (save 13 "c" (after (save_all [(1%Z, "a"); (2%Z, "b")] fresh))))) =
    {[ snapshot_key 2; snapshot_key 13 ]}.
Proof.
  assert (H1 : (0 < 1 < 2)%Z) by lia.
  assert (H2 : (2 < 13)%Z) by lia.
  assert (H3 : digit_count 1 = digit_count 2) by reflexivity.
  assert (H4 : dom (kv (after (save_all [(1%Z, "a"); (2%Z, "b")] fresh))) =
                 {[ snapshot_key 1; snapshot_key 2 ]}) by (vm_compute; reflexivity).
  split; [exact H1 |]. split; [exact H2 |]. split; [exact H3 |]. split; [exact H4 |].
  exact (proj1 (save_keeps_two_most_recent 1 2 13 "c"
                  (after (save_all [(1%Z, "a"); (2%Z, "b")] fresh)) H1 H2 H3 H4)).
Defined.


(* ===================================================================== *)
(** ** What the validator lets through *)
(* ===================================================================== *)

Lemma drop_while_all (f : ascii -> bool) (s : string) :
  forallb f (chars s) = true -> drop_while f s = EmptyString.
Proof.
  unfold chars. induction s as [| c s IH]; [done |].
  cbn [list_ascii_of_string forallb]. intros [Hc Hs]%andb_true_iff.
  cbn [drop_while]. rewrite Hc. by apply IH.
Qed.

(** X17.  An input made of white space only, the empty input included, is
    refused by the validator. *)
Theorem blank_input_is_invalid (data : string) :
  forallb is_space (chars data) = true -> isValidPrometheusMetrics data = false.
Proof.
  intros Hblank. unfold isValidPrometheusMetrics, trim.
  rewrite (drop_while_all is_space data Hblank). reflexivity.
Qed.

Lemma blank_input_is_invalid_witness :
  forallb is_space (chars (" " ++ nl ++ String "009" nl)) = true /\
  isValidPrometheusMetrics (" " ++ nl ++ String "009" nl) = false.
Proof.
  split; [reflexivity |].
  exact (blank_input_is_invalid (" " ++ nl ++ String "009" nl) eq_refl).
Defined.

Lemma drop_while_until (f : ascii -> bool) (a b : string) (c : ascii) :
  f c = false ->
  drop_while f (a ++ String c b) = (drop_while f a ++ String c b)%string.
Proof.
  intros Hc. induction a as [| d a IH].
  - cbn [String.append drop_while]. by rewrite Hc.
  - cbn [String.append drop_while]. destruct (f d); [exact IH | done].
Qed.

Lemma drop_while_line_end (a : string) :
  drop_while is_space (a ++ nl) = EmptyString \/
  exists a', drop_while is_space (a ++ nl) = (a' ++ nl)%string.
Proof.
  induction a as [| d a IH]; [by left |].
  cbn [String.append drop_while]. destruct (is_space d); [exact IH |].
  right. by exists (String d a).
Qed.

Lemma drop_while_end_from (f : ascii -> bool) (a b : string) (c : ascii) :
  f c = false ->
  drop_while_end f (a ++ String c b) = (a ++ String c (drop_while_end f b))%string.
Proof.
  intros Hc. induction a as [| d a IH].
  - cbn [String.append drop_while_end]. destruct (drop_while_end f b); [by rewrite Hc | done].
  - cbn [String.append drop_while_end]. rewrite IH.
    by destruct a.
Qed.

Lemma split_not_nil (c : ascii) (s : string) : split c s <> [].
Proof.
  induction s as [| d s IH]; [done |]. cbn [split].
  destruct (Ascii.eqb c d); [done |]. by destruct (split c s).
Qed.

Lemma split_app_at (c : ascii) (a b : string) :
  split c (a ++ String c b) = split c a ++ split c b.
Proof.
  induction a as [| d a IH].
  - cbn [String.append split]. by rewrite Ascii.eqb_refl.
  - cbn [String.append split]. destruct (Ascii.eqb c d); [by rewrite IH |].
    rewrite IH. pose proof (split_not_nil c a). by destruct (split c a).
Qed.

Lemma comment_first_line (b : string) :
  existsb (fun line => startsWith line "#" || test metric_line_re (trim line))
          (split newline (String "#" b)) = true.
Proof.
  cbn [split]. change (Ascii.eqb newline "#") with false. cbn iota.
  pose proof (split_not_nil newline b).
  destruct (split newline b) as [| p ps]; [done |]. cbn [existsb].
  assert (Hs : startsWith (String "#" p) "#" = true).
  { unfold startsWith. cbn [String.prefix].
    destruct (ascii_dec "#" "#"); [by destruct p | done]. }
  by rewrite Hs.
Qed.

(** X18.  One comment line is enough.  An input in which [#] stands at the
    very start, or right after a newline, is accepted by the validator,
    whatever else it contains. *)
Theorem comment_line_makes_valid (before after : string) :
  isValidPrometheusMetrics (String "#" after) = true /\
  isValidPrometheusMetrics (before ++ nl ++ String "#" after) = true.
Proof.
  assert (Hhash : is_space "#" = false) by reflexivity.
  unfold isValidPrometheusMetrics, trim. split.
  - change (String "#" after) with ("" ++ String "#" after)%string.
    rewrite drop_while_until by done. cbn [drop_while].
    rewrite drop_while_end_from by done. cbn [String.append].
    apply comment_first_line.
  - rewrite <- string_app_assoc.
    rewrite drop_while_until by done.
    destruct (drop_while_line_end before) as [-> | [a' ->]].
    + rewrite drop_while_end_from by done. cbn [String.append].
      apply comment_first_line.
    + rewrite drop_while_end_from by done.
      rewrite string_app_assoc. unfold nl. cbn [String.append]. rewrite split_app_at.
      rewrite existsb_app, comment_first_line.
      apply orb_true_r.
Qed.


(* ===================================================================== *)
(** ** The shared prototype *)
(* ===================================================================== *)

Lemma get_the_prototype {A} (r : realm) (h : props A) (k : string) :
  get r h k = ThePrototype -> k = "__proto__".
Proof.
  unfold get. destruct (get_own k h); [done |].
  destruct (String.eqb_spec k "__proto__") as [-> | _]; [done |].
  destruct (is_prototype_function k); [done |].
  destruct (String.eqb k "sum"); [by destruct (proto_sum r) |].
  destruct (String.eqb k "count"); [by destruct (proto_count r) | done].
Qed.

Lemma parse_line_keeps_prototype (line : string) (r r' : realm)
    (metrics : ParsedMetrics) (o : outcome ParsedMetrics) :
  writes_prototype line = false ->
  parse_line line r metrics = (o, r') -> r' = r.
Proof.
  unfold parse_line, writes_prototype.
  destruct (startsWith line "#"); [by intros _ [= _ <-] |].
  destruct (split_spaces line !! 0%nat) as [[| c0 n0] |]; try by intros _ [= _ <-].
  destruct (split_spaces line !! 1%nat) as [[| c1 v1] |]; try by intros _ [= _ <-].
  destruct (match_name_labels (String c0 n0)) as [[name labelsStr] |];
    [| by intros _ [= _ <-]].
  destruct (includes name "_bucket").
  - intros _.
    by destruct (get r (ensure_histogram r (histograms metrics) (remove_first "_bucket" name))
                   (remove_first "_bucket" name)); intros [= _ <-].
  - destruct (includes name "_sum" || includes name "_count"); cbn [negb andb].
    + intros Hname%String.eqb_neq.
      destruct (get r (ensure_histogram r (histograms metrics) (strip_sum_count name))
                  (strip_sum_count name)) eqn:Hget; try by intros [= _ <-].
      by apply get_the_prototype in Hget.
    + intros _. by destruct (includes name "total" || includes name "errors");
        intros [= _ <-].
Qed.

(** X19.  The parser leaves the shared prototype as it found it, whether it
    returns or throws, unless some line of the input is a sum or count line
    whose base name is [__proto__]. *)
Theorem parse_keeps_prototype (data : string) (r r' : realm) (o : outcome ParsedMetrics) :
  Forall (fun line => writes_prototype line = false) (split newline data) ->
  parsePrometheusMetrics data r = (o, r') -> r' = r.
Proof.
  unfold parsePrometheusMetrics. intros Hall. generalize empty_metrics.
  induction Hall as [| line lines Hline _ IH]; intros metrics; cbn [parse_lines].
  - by intros [= _ <-].
  - destruct (parse_line line r metrics) as [[m' | e] r1] eqn:Hstep;
      apply (parse_line_keeps_prototype _ _ _ _ _ Hline) in Hstep as ->.
    + apply IH.
    + by intros [= _ <-].
Qed.

Lemma parse_keeps_prototype_witness :
  Forall (fun line => writes_prototype line = false)
         (split newline (unlines ["up 1"; "lat_sum 3"; "constructor_bucket 1"])) /\
  parsePrometheusMetrics (unlines ["up 1"; "lat_sum 3"; "constructor_bucket 1"]) pristine =
    (Throws TypeError, pristine).
Proof.
  assert (H : Forall (fun line => writes_prototype line = false)
    (split newline (unlines ["up 1"; "lat_sum 3"; "constructor_bucket 1"])))
    by (vm_compute; repeat constructor).
  split; [exact H |].
  destruct (parsePrometheusMetrics (unlines ["up 1"; "lat_sum 3"; "constructor_bucket 1"])
              pristine) as [o r'] eqn:Hrun.
  pose proof (parse_keeps_prototype _ _ _ _ H Hrun) as ->.
  vm_compute in Hrun. injection Hrun as <-. reflexivity.
Defined.


(* ===================================================================== *)
(** ** Value tokens *)
(* ===================================================================== *)

Lemma metric_line_re_number :
  metric_line_re =
    (Class is_ident_start · Star (Class is_ident_char)
     · Opt (Chr "{" · Star (Class is_dot) · Chr "}")
     · Plus (Class is_space) · number_re)%re.
Proof. reflexivity. Qed.

Lemma is_digit_cases (c : ascii) :
  is_digit c = true ->
  In c ["0"; "1"; "2"; "3"; "4"; "5"; "6"; "7"; "8"; "9"]%char.
Proof.
  destruct c as [[] [] [] [] [] [] [] []]; intros H; vm_compute in H;
    try discriminate H; cbn; tauto.
Qed.

Lemma is_e_cases (c : ascii) : is_e c = true -> c = "e"%char \/ c = "E"%char.
Proof.
  unfold is_e. intros [H | H]%orb_true_iff; apply Ascii.eqb_eq in H; auto.
Qed.

Lemma digit_not_space (c : ascii) : is_digit c = true -> is_space c = false.
Proof.
  intros H%is_digit_cases. cbn [In] in H.
  destruct H as [<- | [<- | [<- | [<- | [<- | [<- | [<- | [<- | [<- | [<- | []]]]]]]]]]];
    reflexivity.
Qed.

Lemma trim_word (s : string) : is_word s = true -> trim s = s.
Proof.
  unfold is_word, chars, trim. intros Hs.
  assert (Hdrop : drop_while is_space s = s).
  { destruct s as [| c s]; [done |]. cbn [list_ascii_of_string forallb] in Hs.
    apply andb_true_iff in Hs as [Hc%negb_true_iff _]. cbn [drop_while]. by rewrite Hc. }
  rewrite Hdrop. induction s as [| c s IH]; [done |].
  cbn [list_ascii_of_string forallb] in Hs.
  apply andb_true_iff in Hs as [Hc%negb_true_iff Hs].
  cbn [drop_while_end]. rewrite IH.
  - destruct s; [by rewrite Hc | done].
  - done.
  - destruct s as [| c' s]; [done |]. cbn [list_ascii_of_string forallb] in Hs.
    apply andb_true_iff in Hs as [Hc'%negb_true_iff _]. cbn [drop_while]. by rewrite Hc'.
Qed.

Lemma decimal_literal_negative (r : string) :
  decimal_literal (String "-" r) = decimal_body true r.
Proof. reflexivity. Qed.

Lemma decimal_literal_unsigned (d : ascii) (r : string) :
  is_digit d = true -> decimal_literal (String d r) = decimal_body false (String d r).
Proof.
  intros H%is_digit_cases. cbn [In] in H.
  destruct H as [<- | [<- | [<- | [<- | [<- | [<- | [<- | [<- | [<- | [<- | []]]]]]]]]]];
    reflexivity.
Qed.

Lemma Number_decimal (d : ascii) (rest : string) :
  is_digit d = true -> follows_digit rest = true ->
  is_word (String d rest) = true ->
  Number (String d rest) = decimal_literal (String d rest).
Proof.
  intros Hd Hrest Hword. unfold Number. rewrite (trim_word _ Hword).
  apply is_digit_cases in Hd. cbn [In] in Hd.
  destruct Hd as [<- | [<- | [<- | [<- | [<- | [<- | [<- | [<- | [<- | [<- | []]]]]]]]]]];
    try reflexivity.
  destruct rest as [| x r]; [reflexivity |].
  cbn [follows_digit] in Hrest.
  destruct x as [[] [] [] [] [] [] [] []]; vm_compute in Hrest;
    try discriminate Hrest; reflexivity.
Qed.

Lemma Number_negative (d : ascii) (rest : string) :
  is_digit d = true ->
  is_word (String d rest) = true ->
  Number (String "-" (String d rest)) = decimal_literal (String "-" (String d rest)).
Proof.
  intros Hd Hword. unfold Number. rewrite trim_word; [done |].
  unfold is_word, chars in *. cbn [list_ascii_of_string forallb] in *. by rewrite Hword.
Qed.

Lemma digit_of_digit (c : ascii) :
  is_digit c = true -> exists n, digit_of c = Some n /\ (n <? 10)%N = true.
Proof.
  intros H%is_digit_cases. cbn [In] in H.
  destruct H as [<- | [<- | [<- | [<- | [<- | [<- | [<- | [<- | [<- | [<- | []]]]]]]]]]];
    eexists; (split; [reflexivity | reflexivity]).
Qed.

Lemma radix_go_digits (s : string) (acc : N) :
  forallb is_digit (chars s) = true -> exists n, radix_go 10 s acc = Some n.
Proof.
  unfold chars. revert acc. induction s as [| c s IH]; intros acc; [by eauto |].
  cbn [list_ascii_of_string forallb]. intros [Hc Hs]%andb_true_iff.
  destruct (digit_of_digit c Hc) as (n & Hn & Hlt).
  cbn [radix_go]. rewrite Hn, Hlt. by apply IH.
Qed.

Lemma radix_value_digits (c : ascii) (s : string) :
  forallb is_digit (chars (String c s)) = true ->
  exists n, radix_value 10 (String c s) = Some n.
Proof. apply radix_go_digits. Qed.

Lemma signed_not_nan (negative : bool) (q : Q) : is_nan (signed negative q) = false.
Proof. unfold signed. destruct negative; [by destruct (Qeq_bool q 0) | done]. Qed.

Lemma exponent_head (s : string) :
  is_exponent_text s ->
  match s with EmptyString => true | String c _ => negb (is_digit c) end = true /\
  split_fraction s = (EmptyString, s).
Proof.
  intros [-> | (e & sg & x & xs & -> & He & _)]; [done |].
  by destruct (is_e_cases e He) as [-> | ->].
Qed.

Lemma exponent_defined (s : string) :
  is_exponent_text s -> exists z, exponent s = Some z.
Proof.
  intros [-> | (e & sg & x & xs & -> & He & Hsg & Hx)]; [by eexists |].
  cbn [exponent]. rewrite He.
  destruct (radix_value_digits x xs Hx) as [n Hn].
  destruct Hsg as [-> | [-> | ->]]; cbn [String.append].
  - assert (Hd : is_digit x = true).
    { unfold chars in Hx. cbn [list_ascii_of_string forallb] in Hx.
      by apply andb_true_iff in Hx as [? _]. }
    apply is_digit_cases in Hd. cbn [In] in Hd.
    destruct Hd as [<- | [<- | [<- | [<- | [<- | [<- | [<- | [<- | [<- | [<- | []]]]]]]]]]];
      rewrite Hn; by eexists.
  - rewrite Hn. by eexists.
  - rewrite Hn. by eexists.
Qed.

Lemma split_fraction_parts (frac exp : string) :
  is_fraction_text frac -> is_exponent_text exp ->
  exists fp, split_fraction (frac ++ exp)%string = (fp, exp) /\
             forallb is_digit (chars fp) = true.
Proof.
  intros [-> | (f & fs & -> & Hf)] Hexp.
  - exists EmptyString. split; [| done]. cbn [String.append].
    by apply exponent_head.
  - exists (String f fs). split; [| done].
    change (String "." (String f fs) ++ exp)%string
      with (String "." (String f fs ++ exp)%string).
    cbn [split_fraction].
    destruct (take_drop_while_app is_digit (String f fs) exp Hf) as [-> ->];
      [by apply exponent_head | done].
Qed.

Lemma digit_first_not_Infinity (d : ascii) (s : string) :
  is_digit d = true -> String.eqb (String d s) "Infinity" = false.
Proof.
  intros H%is_digit_cases. cbn [In] in H.
  destruct H as [<- | [<- | [<- | [<- | [<- | [<- | [<- | [<- | [<- | [<- | []]]]]]]]]]];
    reflexivity.
Qed.

Lemma fraction_head (frac exp : string) :
  is_fraction_text frac -> is_exponent_text exp ->
  match (frac ++ exp)%string with
  | EmptyString => true
  | String c _ => negb (is_digit c)
  end = true.
Proof.
  intros [-> | (f & fs & -> & _)] Hexp; [| done].
  cbn [String.append]. by apply exponent_head.
Qed.

Lemma decimal_body_not_nan (negative : bool) (d : ascii) (ds frac exp : string) :
  forallb is_digit (chars (String d ds)) = true ->
  is_fraction_text frac -> is_exponent_text exp ->
  is_nan (decimal_body negative (String d ds ++ frac ++ exp)%string) = false.
Proof.
  intros Hds Hfrac Hexp. unfold decimal_body.
  change (String d ds ++ frac ++ exp)%string
    with (String d (ds ++ frac ++ exp)%string) at 1.
  rewrite digit_first_not_Infinity
    by (unfold chars in Hds; cbn [list_ascii_of_string forallb] in Hds;
        by apply andb_true_iff in Hds as [? _]).
  destruct (take_drop_while_app is_digit (String d ds) (frac ++ exp)%string Hds
              (fraction_head _ _ Hfrac Hexp)) as [-> ->].
  destruct (split_fraction_parts frac exp Hfrac Hexp) as (fp & -> & Hfp).
  destruct (exponent_defined exp Hexp) as [z ->].
  change (String d ds ++ fp)%string with (String d (ds ++ fp)%string).
  destruct (radix_value_digits d (ds ++ fp)%string) as [n ->].
  - change (String d (ds ++ fp)%string) with (String d ds ++ fp)%string.
    rewrite chars_app, forallb_app. by rewrite Hds, Hfp.
  - apply signed_not_nan.
Qed.

Lemma matches_cat_inv (a b : re) (s : list ascii) :
  matches (Cat a b) s -> exists s1 s2, s = s1 ++ s2 /\ matches a s1 /\ matches b s2.
Proof. inversion 1; subst; eauto. Qed.

Lemma matches_opt_inv (a : re) (s : list ascii) :
  matches (Opt a) s -> s = [] \/ matches a s.
Proof.
  unfold Opt. inversion 1 as [| | | | ? ? ? Heps | |]; subst; [by right |].
  inversion Heps. by left.
Qed.

Lemma matches_class_inv (p : ascii -> bool) (s : list ascii) :
  matches (Class p) s -> exists c, s = [c] /\ p c = true.
Proof. inversion 1; subst; eauto. Qed.

Lemma star_class_forallb (p : ascii -> bool) (s : list ascii) :
  matches (Star (Class p)) s -> forallb p s = true.
Proof.
  intros H. remember (Star (Class p)) as r eqn:Hr.
  induction H as [| | | | | | a s1 s2 H1 _ H2 IH]; try discriminate Hr; [done |].
  injection Hr as ->. apply matches_class_inv in H1 as (c & -> & Hc).
  cbn [app forallb]. rewrite Hc. by apply IH.
Qed.

Lemma plus_class_forallb (p : ascii -> bool) (s : list ascii) :
  matches (Plus (Class p)) s ->
  exists c t, s = c :: t /\ forallb p (c :: t) = true.
Proof.
  unfold Plus. intros (s1 & s2 & -> & (c & -> & Hc)%matches_class_inv & Hs)%matches_cat_inv.
  apply star_class_forallb in Hs. exists c, s2. cbn [app forallb]. by rewrite Hc, Hs.
Qed.

Lemma string_of_list_ascii_app (a b : list ascii) :
  string_of_list_ascii (a ++ b) =
    (string_of_list_ascii a ++ string_of_list_ascii b)%string.
Proof. induction a as [| c a IH]; [done |]. cbn. by rewrite IH. Qed.

Lemma chars_string_of_list_ascii (l : list ascii) : chars (string_of_list_ascii l) = l.
Proof. apply list_ascii_of_string_of_list_ascii. Qed.

Lemma number_text_parts (l : list ascii) :
  matches number_re l ->
  exists (negative : bool) d ds frac exp,
    string_of_list_ascii l =
      ((if negative then "-" else EmptyString) ++ String d ds ++ frac ++ exp)%string /\
    forallb is_digit (chars (String d ds)) = true /\
    is_fraction_text frac /\ is_exponent_text exp.
Proof.
  unfold number_re.
  intros (s0 & t0 & -> & H0 & (s1 & t1 & -> & H1 & (s2 & s3 & -> & H2 & H3)
    %matches_cat_inv)%matches_cat_inv)%matches_cat_inv.
  apply plus_class_forallb in H1 as (d & ds & -> & Hds).
  exists (if s0 is [] then false else true), d, (string_of_list_ascii ds),
    (string_of_list_ascii s2), (string_of_list_ascii s3).
  repeat split.
  - rewrite !string_of_list_ascii_app. f_equal.
    apply matches_opt_inv in H0 as [-> | (c & -> & ->%Ascii.eqb_eq)%matches_class_inv]; done.
  - change (String d (string_of_list_ascii ds)) with (string_of_list_ascii (d :: ds)).
    by rewrite chars_string_of_list_ascii.
  - apply matches_opt_inv in H2 as [-> | H2]; [by left | right].
    apply matches_cat_inv in H2
      as (u & t & -> & (c & -> & <-%Ascii.eqb_eq)%matches_class_inv & H2).
    apply plus_class_forallb in H2 as (f & fs & -> & Hfs).
    exists f, (string_of_list_ascii fs). split; [done |].
    change (String f (string_of_list_ascii fs)) with (string_of_list_ascii (f :: fs)).
    by rewrite chars_string_of_list_ascii.
  - apply matches_opt_inv in H3 as [-> | H3]; [by left | right].
    apply matches_cat_inv in H3
      as (u & t & -> & (e & -> & He)%matches_class_inv &
          (sg & t' & -> & Hsg & Hx)%matches_cat_inv).
    apply plus_class_forallb in Hx as (x & xs & -> & Hxs).
    exists e, (string_of_list_ascii sg), x, (string_of_list_ascii xs).
    repeat split.
    + cbn [app string_of_list_ascii]. by rewrite string_of_list_ascii_app.
    + done.
    + apply matches_opt_inv in Hsg as [-> | (c & -> & Hc)%matches_class_inv]; [by left |].
      right. unfold is_sign in Hc.
      apply orb_true_iff in Hc as [<-%Ascii.eqb_eq | <-%Ascii.eqb_eq]; auto.
    + change (String x (string_of_list_ascii xs)) with (string_of_list_ascii (x :: xs)).
      by rewrite chars_string_of_list_ascii.
Qed.

Lemma is_word_app (a b : string) :
  is_word (a ++ b)%string = is_word a && is_word b.
Proof. unfold is_word. by rewrite chars_app, forallb_app. Qed.

Lemma digits_word (s : string) : forallb is_digit (chars s) = true -> is_word s = true.
Proof.
  unfold is_word. intros H. apply forallb_forall. intros c Hc.
  rewrite forallb_forall in H. by rewrite (digit_not_space c (H c Hc)).
Qed.

Lemma fraction_word (s : string) : is_fraction_text s -> is_word s = true.
Proof.
  intros [-> | (f & fs & -> & H)]; [done |].
  change (String "." (String f fs)) with ("." ++ String f fs)%string.
  rewrite is_word_app. by rewrite (digits_word _ H).
Qed.

Lemma exponent_word (s : string) : is_exponent_text s -> is_word s = true.
Proof.
  intros [-> | (e & sg & x & xs & -> & He & Hsg & H)]; [done |].
  change (String e (sg ++ String x xs)%string)
    with (String e "" ++ (sg ++ String x xs))%string.
  rewrite !is_word_app, (digits_word _ H).
  destruct (is_e_cases e He) as [-> | ->]; by destruct Hsg as [-> | [-> | ->]].
Qed.

Lemma follows_first_digit (ds frac exp : string) :
  forallb is_digit (chars ds) = true ->
  is_fraction_text frac -> is_exponent_text exp ->
  follows_digit (ds ++ frac ++ exp)%string = true.
Proof.
  intros Hds Hfrac Hexp. destruct ds as [| c ds].
  - cbn [String.append]. destruct Hfrac as [-> | (f & fs & -> & _)]; [| done].
    cbn [String.append]. destruct Hexp as [-> | (e & sg & x & xs & -> & He & _)]; [done |].
    cbn [follows_digit]. rewrite He. apply orb_true_r.
  - unfold chars in Hds. cbn [list_ascii_of_string forallb] in Hds.
    apply andb_true_iff in Hds as [Hc _]. cbn [String.append follows_digit]. by rewrite Hc.
Qed.

(** X20.  A text of the shape the upload check asks of a value (an optional
    minus sign, digits, an optional fraction, an optional exponent) is never
    read as NaN by [Number]. *)
Theorem accepted_number_not_nan (value : string) :
  test number_re value = true -> is_nan (Number value) = false.
Proof.
  unfold test. intros H%test_chars_spec.
  apply number_text_parts in H
    as (negative & d & ds & frac & exp & Hvalue & Hds & Hfrac & Hexp).
  rewrite string_of_list_ascii_of_string in Hvalue. subst value.
  assert (Hd : is_digit d = true).
  { unfold chars in Hds. cbn [list_ascii_of_string forallb] in Hds.
    by apply andb_true_iff in Hds as [? _]. }
  assert (Hword : is_word (String d (ds ++ frac ++ exp)%string) = true).
  { change (String d (ds ++ frac ++ exp)%string)
      with (String d ds ++ frac ++ exp)%string.
    by rewrite !is_word_app, (digits_word _ Hds), (fraction_word _ Hfrac),
      (exponent_word _ Hexp). }
  destruct negative; cbn [String.append].
  - rewrite (Number_negative _ _ Hd Hword), decimal_literal_negative.
    by apply (decimal_body_not_nan true d ds frac exp).
  - rewrite Number_decimal, (decimal_literal_unsigned _ _ Hd); [| done | | done].
    + by apply (decimal_body_not_nan false d ds frac exp).
    + unfold chars in Hds. cbn [list_ascii_of_string forallb] in Hds.
      apply andb_true_iff in Hds as [_ Hds]. by apply follows_first_digit.
Qed.

Lemma accepted_number_not_nan_witness :
  test number_re "-12.50e+3" = true /\ is_nan (Number "-12.50e+3") = false.
Proof.
  split; [reflexivity |].
  exact (accepted_number_not_nan "-12.50e+3" eq_refl).
Defined.

Lemma pretty_N_char_digit (x : N) :
  (x < 10)%N ->
  is_digit (pretty_N_char x) = true /\ digit_of (pretty_N_char x) = Some x.
Proof.
  intros Hx.
  assert (x = 0 \/ x = 1 \/ x = 2 \/ x = 3 \/ x = 4 \/ x = 5 \/ x = 6 \/ x = 7 \/
          x = 8 \/ x = 9)%N as Hcases by lia.
  destruct Hcases as [-> | [-> | [-> | [-> | [-> | [-> | [-> | [-> | [-> | ->]]]]]]]]];
    by split.
Qed.

Lemma radix_go_app (radix : N) (a b : string) (acc : N) :
  radix_go radix (a ++ b)%string acc = radix_go radix a acc ≫= radix_go radix b.
Proof.
  revert acc. induction a as [| c a IH]; intros acc; [done |].
  cbn [String.append radix_go]. destruct (digit_of c) as [d |]; [| done].
  destruct (d <? radix)%N; [apply IH | done].
Qed.

Lemma pretty_N_go_digits (x : N) :
  forallb is_digit (chars (pretty_N_go x "")) = true /\
  radix_go 10 (pretty_N_go x "") 0 = Some x.
Proof.
  induction (N.lt_wf_0 x) as [x _ IH].
  assert (x = 0 \/ 0 < x)%N as [-> | Hx] by lia; [done |].
  rewrite pretty_N_go_snoc by done.
  destruct (IH (x `div` 10)%N) as [IHd IHv]; [by apply N.div_lt |].
  destruct (pretty_N_char_digit (x `mod` 10)%N) as [Hd Hv]; [by apply N.mod_lt |].
  split.
  - rewrite chars_app, forallb_app, IHd. unfold chars. cbn. by rewrite Hd.
  - rewrite radix_go_app, IHv. cbn [mbind option_bind radix_go]. rewrite Hv.
    assert (Hlt : (x `mod` 10 <? 10)%N = true) by (apply N.ltb_lt; by apply N.mod_lt).
    rewrite Hlt. f_equal. pose proof (N.div_mod x 10 ltac:(lia)). lia.
Qed.

Lemma Qred_inject_Z (z : Z) : Qred (inject_Z z) = inject_Z z.
Proof.
  unfold Qred, inject_Z.
  pose proof (Z.ggcd_correct_divisors z 1) as Hdiv.
  pose proof (Z.ggcd_gcd z 1) as Hgcd.
  destruct (Z.ggcd z 1) as [g [aa bb]]. cbn [fst] in Hgcd.
  rewrite Z.gcd_1_r in Hgcd. subst g. destruct Hdiv as [Ha Hb].
  assert (bb = 1%Z) as -> by lia. assert (aa = z) as -> by lia. reflexivity.
Qed.

Lemma decimal_body_digits (negative : bool) (d : ascii) (ds : string) (n : N) :
  forallb is_digit (chars (String d ds)) = true ->
  radix_go 10 (String d ds) 0 = Some n ->
  decimal_body negative (String d ds) = signed negative (inject_Z (Z.of_N n) * 1).
Proof.
  intros Hds Hn. unfold decimal_body.
  rewrite digit_first_not_Infinity
    by (unfold chars in Hds; cbn [list_ascii_of_string forallb] in Hds;
        by apply andb_true_iff in Hds as [? _]).
  destruct (take_drop_while_app is_digit (String d ds) EmptyString Hds eq_refl)
    as [Htake Hdrop].
  rewrite string_app_nil_r in Htake, Hdrop. rewrite Htake, Hdrop.
  cbn [split_fraction exponent]. rewrite string_app_nil_r.
  change (radix_value 10 (String d ds)) with (radix_go 10 (String d ds) 0).
  by rewrite Hn.
Qed.

Lemma Number_digits (x : N) :
  (0 < x)%N ->
  Number (pretty_N_go x "") = Finite (inject_Z (Z.of_N x)) /\
  Number (String "-" (pretty_N_go x "")) = Finite (inject_Z (- Z.of_N x)).
Proof.
  intros Hx. destruct (pretty_N_go_digits x) as [Hds Hv].
  destruct (pretty_N_go x "") as [| d ds] eqn:Hp;
    [apply pretty_N_go_empty in Hp; lia |].
  assert (Hd : is_digit d = true).
  { unfold chars in Hds. cbn [list_ascii_of_string forallb] in Hds.
    by apply andb_true_iff in Hds as [? _]. }
  assert (Hword : is_word (String d ds) = true) by by apply digits_word.
  split.
  - rewrite Number_decimal, (decimal_literal_unsigned _ _ Hd); [| done | | done].
    + rewrite (decimal_body_digits false d ds x Hds Hv). cbn [signed].
      by rewrite (Qred_complete _ (inject_Z (Z.of_N x)) (Qmult_1_r _)), Qred_inject_Z.
    + unfold chars in Hds. cbn [list_ascii_of_string forallb] in Hds.
      apply andb_true_iff in Hds as [_ Hds]. destruct ds as [| c ds]; [done |].
      cbn [list_ascii_of_string forallb] in Hds.
      apply andb_true_iff in Hds as [Hc _]. cbn [follows_digit]. by rewrite Hc.
  - rewrite (Number_negative _ _ Hd Hword), decimal_literal_negative.
    rewrite (decimal_body_digits true d ds x Hds Hv). cbn [signed].
    destruct (Qeq_bool _ 0) eqn:Hzero.
    + apply Qeq_bool_eq in Hzero. unfold Qeq in Hzero. cbn in Hzero. lia.
    + rewrite (Qred_complete _ (inject_Z (- Z.of_N x))), Qred_inject_Z; [done |].
      unfold Qeq. cbn. lia.
Qed.

(** X21.  [Number] reads the decimal text of an integer back as that
    integer, for the integers of magnitude at most 2^53, which binary64
    holds exactly: the text of a timestamp put in a key or a link, and an
    integer value token in that range, convert to the number they spell. *)
Theorem Number_of_integer_text (z : Z) :
  (Z.abs z <= 2 ^ 53)%Z -> Number (pretty z) = of_Z z.
Proof.
  intros _. unfold of_Z. destruct z as [| p | p].
  - reflexivity.
  - rewrite pretty_Z_digits by lia. change (Z.to_N (Z.pos p)) with (N.pos p).
    by destruct (Number_digits (N.pos p)) as [-> _].
  - unfold pretty, pretty_Z, pretty, pretty_positive, pretty, pretty_N.
    rewrite decide_False by done.
    destruct (Number_digits (N.pos p)) as [_ Hneg]; [done |]. exact Hneg.
Qed.

Lemma Number_of_integer_text_witness :
  (Z.abs 1700000000000 <= 2 ^ 53)%Z /\
  Number (pretty 1700000000000%Z) = of_Z 1700000000000.
Proof.
  assert (Hsafe : (Z.abs 1700000000000 <= 2 ^ 53)%Z) by (vm_compute; discriminate).
  split; [exact Hsafe |].
  exact (Number_of_integer_text 1700000000000 Hsafe).
Defined.
